(** * infra-scheduler: the claim / dispatch / retry state machine of
      [sendScheduled.ts] (final variant), as a shallow embedding.

    The script drains the Firestore collection [scheduled_notifications],
    sends each due job through FCM and records the outcome.  The embedding
    follows the source function by function:

    - [toSafeString], [isRetryableError], [nowTs], [sleep] are the helpers of
      the same names;
    - the body of [main] is split along its own blocks: the claim
      transaction ([claim_tx]), the sanitising of the fields ([read_fields]),
      the message literal ([build_message]), the [try] block
      ([send_and_log]), the [catch] block ([on_failure]), the body of the
      inner [for] ([process_doc]), the inner [for] itself ([process_page])
      and the outer [for] over batches ([batch_loop]).

    Effects are threaded through a state-and-exception monad over a [World]
    that holds the three collections and the traces of the calls that leave
    the process: the [update] calls, the gateway calls, the pages fetched and
    the clock reads.  The clock, the gateway and the date conversion are
    parameters of the model. *)

From stdpp Require Import base strings pretty list gmap sorting.
From Equations Require Import Equations.
From Stdlib Require Import ZArith Ascii String Lia.

Local Set Warnings "-register-all".
Local Open Scope string_scope.
Local Open Scope Z_scope.
Local Open Scope list_scope.

(** ** JavaScript values

    The job fields are read as [unknown] and pushed through [String(v)], so
    the content fields are kept as dynamic values.  Numbers are the integers
    (no fractions, no NaN); objects keep their own enumerable fields. *)

Inductive Value : Type :=
| VUndef
| VNull
| VBool (b : bool)
| VNum (n : Z)
| VStr (s : string)
| VArr (items : list Value)
| VObj (fields : list (string * Value)).

(** [v == null] *)
Definition js_nullish (v : Value) : bool :=
  match v with
  | VUndef | VNull => true
  | _ => false
  end.

(** Truthiness, as used by [!x], [x ? a : b], [x || y] and [Boolean(x)]. *)
Definition js_truthy (v : Value) : bool :=
  match v with
  | VUndef | VNull => false
  | VBool b => b
  | VNum n => negb (n =? 0)
  | VStr s => negb (String.eqb s "")
  | VArr _ | VObj _ => true
  end.

(** [a || b] *)
Definition js_or (a b : Value) : Value := if js_truthy a then a else b.

(** [typeof v === 'object'] *)
Definition js_typeof_object (v : Value) : bool :=
  match v with
  | VNull | VArr _ | VObj _ => true
  | _ => false
  end.

(** [String(v)].  An array is joined with commas, a nullish item printing as
    the empty string; a plain object prints as [[object Object]]. *)
Fixpoint js_String (v : Value) : string :=
  match v with
  | VUndef => "undefined"
  | VNull => "null"
  | VBool true => "true"
  | VBool false => "false"
  | VNum n => pretty n
  | VStr s => s
  | VArr items =>
      (fix join (l : list Value) : string :=
         match l with
         | [] => ""
         | [x] => if js_nullish x then "" else js_String x
         | x :: rest =>
             (if js_nullish x then "" else js_String x) +:+ "," +:+ join rest
         end) items
  | VObj _ => "[object Object]"
  end.

(** [code === 'literal'] *)
Definition js_is_string (v : Value) (lit : string) : bool :=
  match v with
  | VStr s => String.eqb s lit
  | _ => false
  end.

(** ** [toSafeString] (lines 42-46) *)
Definition toSafeString (v : Value) : option string :=
  if js_nullish v then None
  else
    let s := js_String v in
    match String.length s with
    | O => None
    | S _ => Some s
    end.

(** ** The regular expression of [isRetryableError]

    [/429|quota|exhausted|unavailable|deadline/i.test(msg)]: one of five
    literal alternatives occurs somewhere in [msg], letters compared without
    regard to case.  Without the [u] flag the case folding of a regular
    expression never maps a character outside ASCII onto an ASCII one, so
    folding the ASCII capitals is exact. *)

Definition lower_ascii (c : ascii) : ascii :=
  let n := nat_of_ascii c in
  if ((65 <=? n) && (n <=? 90))%nat then ascii_of_nat (n + 32) else c.

Fixpoint lower (s : string) : string :=
  match s with
  | EmptyString => EmptyString
  | String c s' => String (lower_ascii c) (lower s')
  end.

Fixpoint starts_with (p s : string) : bool :=
  match p, s with
  | EmptyString, _ => true
  | String _ _, EmptyString => false
  | String a p', String b s' => Ascii.eqb a b && starts_with p' s'
  end.

Fixpoint occurs_in (p s : string) : bool :=
  starts_with p s ||
  match s with
  | EmptyString => false
  | String _ s' => occurs_in p s'
  end.

Definition transient_words : list string :=
  ["429"; "quota"; "exhausted"; "unavailable"; "deadline"].

Definition transient_pattern_test (msg : string) : bool :=
  existsb (fun p => occurs_in p (lower msg)) transient_words.

(** ** Thrown values

    What [messaging.send] (and a store call) rejects with: an [Error] object
    carrying an optional [code], an optional [errorInfo.code], an optional
    [message] and the [name] of its class. *)

Record JsError : Type := mkJsError {
  err_code : Value;
  err_errorInfo_code : Value;
  err_message : option string;
  err_name : string
}.

(** [String(e)] for an [Error]: [Error.prototype.toString]. *)
Definition error_toString (e : JsError) : string :=
  let msg := default "" (err_message e) in
  if String.eqb (err_name e) "" then msg
  else if String.eqb msg "" then err_name e
  else err_name e +:+ ": " +:+ msg.

(** [(e as any)?.code || (e as any)?.errorInfo?.code] *)
Definition error_code (e : JsError) : Value :=
  js_or (err_code e) (err_errorInfo_code e).

(** [String((e as any)?.message || e || '')]: an empty or missing message
    falls through to the object itself, which is truthy. *)
Definition error_text (e : JsError) : string :=
  match err_message e with
  | Some m => if String.eqb m "" then error_toString e else m
  | None => error_toString e
  end.

Definition transient_codes : list string :=
  ["resource-exhausted"; "quota-exceeded"; "aborted"; "unavailable"].

(** ** [isRetryableError] (lines 52-63) *)
Definition isRetryableError (e : JsError) : bool :=
  let code := error_code e in
  let msg := error_text e in
  js_is_string code "resource-exhausted" ||
  js_is_string code "quota-exceeded" ||
  js_is_string code "aborted" ||
  js_is_string code "unavailable" ||
  transient_pattern_test msg.

(** ** Data model *)

(** [status: 'queued' | 'processing' | 'sent' | 'error'] (README, schema). *)
Inductive Status : Type := queued | processing | sent | error.

#[global] Instance Status_eq_dec : EqDecision Status :=
  ltac:(solve_decision).

(** A document of [scheduled_notifications].  The content fields are read
    through [toSafeString] and stay dynamic; the scheduling and lifecycle
    fields are written by the producer and by this script with fixed types
    (timestamps are instants on an integer time line, [attemptCount] is
    absent or a number). *)
Record Job : Type := mkJob {
  title : Value;
  body : Value;
  topic : Value;
  token : Value;
  imageUrl : Value;
  action : Value;
  additionalData : Value;
  debug : Value;
  expiry : Value;
  scheduleTime : Z;
  status : Status;
  attemptCount : option Z;
  lastResult : option string;
  processingAt : option Z;
  sentAt : option Z;
  errorAt : option Z
}.

(** The field object handed to [update]: the listed fields are overwritten,
    the others are left as they are. *)
Record Patch : Type := mkPatch {
  set_status : option Status;
  set_attemptCount : option Z;
  set_lastResult : option string;
  set_processingAt : option Z;
  set_sentAt : option Z;
  set_errorAt : option Z
}.

Definition keep {A} (new old : option A) : option A :=
  match new with
  | Some x => Some x
  | None => old
  end.

Definition apply_patch (p : Patch) (j : Job) : Job :=
  {| title := title j; body := body j; topic := topic j; token := token j;
     imageUrl := imageUrl j; action := action j;
     additionalData := additionalData j; debug := debug j;
     expiry := expiry j; scheduleTime := scheduleTime j;
     status := default (status j) (set_status p);
     attemptCount := keep (set_attemptCount p) (attemptCount j);
     lastResult := keep (set_lastResult p) (lastResult j);
     processingAt := keep (set_processingAt p) (processingAt j);
     sentAt := keep (set_sentAt p) (sentAt j);
     errorAt := keep (set_errorAt p) (errorAt j) |}.

(** The sanitised locals of the loop body (lines 108-116). *)
Record Fields : Type := mkFields {
  f_title : string;
  f_body : string;
  f_topic : option string;
  f_token : option string;
  f_imageUrl : option string;
  f_action : option string;
  f_additionalData : option Value;
  f_debug : bool;
  f_expiry : option Z
}.

(** The outbound message (lines 124-157). *)
Record Notification : Type := mkNotification {
  n_title : string;
  n_body : string;
  n_imageUrl : option string
}.

Record AndroidNotification : Type := mkAndroid {
  a_channelId : string;
  a_imageUrl : option string;
  a_priority : string
}.

Record Apns : Type := mkApns {
  aps_mutable_content : Z;
  aps_content_available : Z;
  fcmOptions_imageUrl : option string
}.

Record Message : Type := mkMessage {
  m_topic : option string;
  m_token : option string;
  m_notification : Notification;
  m_data : gmap string Value;
  m_android : AndroidNotification;
  m_apns : Apns
}.

(** A document of [notifications] ([logDoc], lines 170-179). *)
Record LogDoc : Type := mkLogDoc {
  log_title : string;
  log_body : string;
  log_imageUrl : option string;
  log_action : option string;
  log_debug : bool;
  log_timestamp : Z;
  log_expiry : option Z;
  log_from : string
}.

(** A document of [failed_notifications] (lines 191-198). *)
Record DeadLetter : Type := mkDeadLetter {
  dl_refId : string;
  dl_payload : Fields;
  dl_error : string;
  dl_attempts : Z;
  dl_failedAt : Z;
  dl_from : string
}.

(** [DRY_RUN], [BATCH_LIMIT], [MAX_BATCHES], [MAX_ATTEMPTS] (lines 73-76),
    once parsed. *)
Record Config : Type := mkConfig {
  DRY_RUN : bool;
  BATCH_LIMIT : Z;
  MAX_BATCHES : Z;
  MAX_ATTEMPTS : Z
}.

Definition default_config : Config := mkConfig false 50 10 5.

(** ** The world

    The three collections, and the traces of what leaves the process: the
    field objects passed to [update] (in order, with the document id), the
    messages handed to the gateway, the sizes of the pages the due query
    returned, and the number of clock reads so far. *)
Record World : Type := mkWorld {
  scheduled_notifications : gmap string Job;
  notifications : list LogDoc;
  failed_notifications : list DeadLetter;
  updates : list (string * Patch);
  gateway_calls : list Message;
  page_sizes : list nat;
  clock_reads : nat
}.

(** ** State and exceptions *)

Inductive Outcome (A : Type) : Type :=
| Ok (a : A)
| Throw (e : JsError).
Arguments Ok {A} a.
Arguments Throw {A} e.

Definition M (A : Type) : Type := World -> Outcome A * World.

Definition ret {A} (a : A) : M A := fun w => (Ok a, w).

Definition bind {A B} (m : M A) (k : A -> M B) : M B :=
  fun w =>
    match m w with
    | (Ok a, w') => k a w'
    | (Throw e, w') => (Throw e, w')
    end.

(** [try { body } catch (err) { handler }] *)
Definition try_catch {A} (body : M A) (handler : JsError -> M A) : M A :=
  fun w =>
    match body w with
    | (Ok a, w') => (Ok a, w')
    | (Throw e, w') => handler e w'
    end.

(** A call that either returns or throws, without touching the world. *)
Definition lift {A} (o : Outcome A) : M A := fun w => (o, w).

Declare Scope prog_scope.
Delimit Scope prog_scope with prog.
Notation "x <- m ;; k" := (bind m (fun x => k))
  (at level 100, m at next level, right associativity) : prog_scope.
Notation "m ;; k" := (bind m (fun _ => k))
  (at level 100, right associativity) : prog_scope.

Local Open Scope prog_scope.

(** ** Store and gateway primitives *)

(** [ref.get()] / [tx.get(ref)]: [None] stands for [!snap.exists]. *)
Definition doc_get (id : string) : M (option Job) :=
  fun w => (Ok (scheduled_notifications w !! id), w).

(** What [update] rejects with when the document does not exist. *)
Definition not_found : JsError :=
  mkJsError (VNum 5) VUndef (Some "5 NOT_FOUND: No document to update") "Error".

Definition write_doc (id : string) (p : Patch) (j : Job) (w : World) : World :=
  {| scheduled_notifications := <[id := apply_patch p j]> (scheduled_notifications w);
     notifications := notifications w;
     failed_notifications := failed_notifications w;
     updates := updates w ++ [(id, p)];
     gateway_calls := gateway_calls w;
     page_sizes := page_sizes w;
     clock_reads := clock_reads w |}.

(** [ref.update(fields)] / [tx.update(ref, fields)] *)
Definition doc_update (id : string) (p : Patch) : M unit :=
  fun w =>
    match scheduled_notifications w !! id with
    | Some j => (Ok tt, write_doc id p j w)
    | None => (Throw not_found, w)
    end.

Definition push_notification (d : LogDoc) (w : World) : World :=
  {| scheduled_notifications := scheduled_notifications w;
     notifications := notifications w ++ [d];
     failed_notifications := failed_notifications w;
     updates := updates w;
     gateway_calls := gateway_calls w;
     page_sizes := page_sizes w;
     clock_reads := clock_reads w |}.

Definition push_failed (d : DeadLetter) (w : World) : World :=
  {| scheduled_notifications := scheduled_notifications w;
     notifications := notifications w;
     failed_notifications := failed_notifications w ++ [d];
     updates := updates w;
     gateway_calls := gateway_calls w;
     page_sizes := page_sizes w;
     clock_reads := clock_reads w |}.

Definition push_call (m : Message) (w : World) : World :=
  {| scheduled_notifications := scheduled_notifications w;
     notifications := notifications w;
     failed_notifications := failed_notifications w;
     updates := updates w;
     gateway_calls := gateway_calls w ++ [m];
     page_sizes := page_sizes w;
     clock_reads := clock_reads w |}.

Definition push_page (n : nat) (w : World) : World :=
  {| scheduled_notifications := scheduled_notifications w;
     notifications := notifications w;
     failed_notifications := failed_notifications w;
     updates := updates w;
     gateway_calls := gateway_calls w;
     page_sizes := page_sizes w ++ [n];
     clock_reads := clock_reads w |}.

Definition tick (w : World) : World :=
  {| scheduled_notifications := scheduled_notifications w;
     notifications := notifications w;
     failed_notifications := failed_notifications w;
     updates := updates w;
     gateway_calls := gateway_calls w;
     page_sizes := page_sizes w;
     clock_reads := S (clock_reads w) |}.

(** [db.collection('notifications').add(logDoc)] *)
Definition add_notification (d : LogDoc) : M unit :=
  fun w => (Ok tt, push_notification d w).

(** The first field of the [payload] literal of line 193 that is
    [undefined], in the order of the literal.  [title] and [body] have a
    default and [debug] is a boolean; the other six are passed as they are,
    not as [x ?? null] the way [logDoc] passes them (lines 173-177). *)
Definition undefined_payload_field (f : Fields) : option string :=
  match f_topic f, f_token f, f_imageUrl f, f_action f,
        f_additionalData f, f_expiry f with
  | None, _, _, _, _, _ => Some "topic"
  | _, None, _, _, _, _ => Some "token"
  | _, _, None, _, _, _ => Some "imageUrl"
  | _, _, _, None, _, _ => Some "action"
  | _, _, _, _, None, _ => Some "additionalData"
  | _, _, _, _, _, None => Some "expiry"
  | Some _, Some _, Some _, Some _, Some _, Some _ => None
  end.

Definition double_quote : string := String (Ascii.ascii_of_nat 34) EmptyString.

(** What [add] rejects with when the document has a field that is
    [undefined]: the client validates the document before it writes, and
    the script never sets [ignoreUndefinedProperties]. *)
Definition invalid_document (field : string) : JsError :=
  mkJsError VUndef VUndef
    (Some ("Value for argument " +:+ double_quote +:+ "data" +:+ double_quote
           +:+ " is not a valid Firestore document. Cannot use "
           +:+ double_quote +:+ "undefined" +:+ double_quote
           +:+ " as a Firestore value (found in field "
           +:+ double_quote +:+ "payload." +:+ field +:+ double_quote
           +:+ "). If you want to ignore undefined values, enable "
           +:+ "`ignoreUndefinedProperties`."))
    "Error".

(** [db.collection('failed_notifications').add(...)]: nothing is written
    when the payload has an [undefined] field, and the call throws. *)
Definition add_failed_notification (d : DeadLetter) : M unit :=
  fun w =>
    match undefined_payload_field (dl_payload d) with
    | Some field => (Throw (invalid_document field), w)
    | None => (Ok tt, push_failed d w)
    end.

Arguments undefined_payload_field : simpl never.

(** The size of a fetched page is noted when the query returns. *)
Definition note_page (n : nat) : M unit :=
  fun w => (Ok tt, push_page n w).

(** The field objects of the five [update] calls (lines 105, 120, 162 and
    166, 186, 189). *)
Definition claim_patch (t : Z) : Patch :=
  {| set_status := Some processing; set_attemptCount := None;
     set_lastResult := None; set_processingAt := Some t;
     set_sentAt := None; set_errorAt := None |}.

Definition missing_target_patch (t : Z) : Patch :=
  {| set_status := Some error; set_attemptCount := None;
     set_lastResult := Some "missing-target"; set_processingAt := None;
     set_sentAt := None; set_errorAt := Some t |}.

Definition sent_patch (result : string) (t : Z) : Patch :=
  {| set_status := Some sent; set_attemptCount := None;
     set_lastResult := Some result; set_processingAt := None;
     set_sentAt := Some t; set_errorAt := None |}.

Definition retry_patch (attempts : Z) (msg : string) (t : Z) : Patch :=
  {| set_status := Some queued; set_attemptCount := Some attempts;
     set_lastResult := Some msg; set_processingAt := None;
     set_sentAt := None; set_errorAt := Some t |}.

Definition error_patch (attempts : Z) (msg : string) (t : Z) : Patch :=
  {| set_status := Some error; set_attemptCount := Some attempts;
     set_lastResult := Some msg; set_processingAt := None;
     set_sentAt := None; set_errorAt := Some t |}.

(** [logDoc] (lines 170-179) *)
Definition log_doc (f : Fields) (t : Z) : LogDoc :=
  {| log_title := f_title f;
     log_body := f_body f;
     log_imageUrl := f_imageUrl f;
     log_action := f_action f;
     log_debug := f_debug f;
     log_timestamp := t;
     log_expiry := f_expiry f;
     log_from := "github-actions" |}.

(** The dead-letter copy (lines 191-198) *)
Definition dead_letter (id : string) (f : Fields) (msg : string)
           (attempts t : Z) : DeadLetter :=
  {| dl_refId := id;
     dl_payload := f;
     dl_error := msg;
     dl_attempts := attempts;
     dl_failedAt := t;
     dl_from := "github-actions" |}.

(** [sleep(ms)] (lines 48-50): a pause; time is read only through [nowTs]. *)
Definition sleep (ms : Z) : M unit := ret tt.

(** [x || 0] on an optional number. *)
Definition num_or_zero (o : option Z) : Z :=
  match o with
  | Some n => if n =? 0 then 0 else n
  | None => 0
  end.

(** [!s] on a [string | undefined] *)
Definition str_falsy (o : option string) : bool :=
  match o with
  | Some s => String.eqb s ""
  | None => true
  end.

(** The own enumerable fields that an object spread copies. *)
Definition own_fields (v : Value) : list (string * Value) :=
  match v with
  | VObj fields => fields
  | VArr items => imap (fun i x => (pretty i, x)) items
  | _ => []
  end.

(** An object literal: later keys overwrite earlier ones. *)
Definition object_of (kvs : list (string * Value)) : gmap string Value :=
  foldl (fun m kv => <[kv.1 := kv.2]> m) ∅ kvs.

(** The message literal (lines 124-157). *)
Definition build_message (f : Fields) : Message :=
  {| m_topic := f_topic f;
     m_token := f_token f;
     m_notification :=
       {| n_title := f_title f; n_body := f_body f;
          n_imageUrl := f_imageUrl f |};
     m_data :=
       object_of
         ([ ("title", VStr (f_title f));
            ("body", VStr (f_body f));
            ("imageUrl", VStr (default "" (f_imageUrl f)));
            ("action", VStr (default "" (f_action f)));
            ("debug", VStr (if f_debug f then "true" else "false"));
            ("screen", VStr "/notifications_screen") ]
          ++ own_fields (default (VObj []) (f_additionalData f)));
     m_android :=
       {| a_channelId := "high_importance_channel";
          a_imageUrl := f_imageUrl f;
          a_priority := "HIGH" |};
     m_apns :=
       {| aps_mutable_content := 1;
          aps_content_available := 1;
          fcmOptions_imageUrl :=
            if str_falsy (f_imageUrl f) then None else f_imageUrl f |} |}.

(** Lines 108-115: the sanitised fields, given the converted expiry. *)
Definition fields_of (data : Job) (expiry : option Z) : Fields :=
  {| f_title := default "Pemberitahuan" (toSafeString (title data));
     f_body := default "" (toSafeString (body data));
     f_topic := toSafeString (topic data);
     f_token := toSafeString (token data);
     f_imageUrl := toSafeString (imageUrl data);
     f_action := toSafeString (action data);
     f_additionalData :=
       if js_truthy (additionalData data)
          && js_typeof_object (additionalData data)
       then Some (additionalData data) else None;
     f_debug := js_truthy (debug data);
     f_expiry := expiry |}.

(** [(err as Error).message ?? String(err)] (line 182) *)
Definition catch_text (err : JsError) : string :=
  match err_message err with
  | Some m => m
  | None => error_toString err
  end.

(** ** The store's answer to the due query (lines 81-87)

    [status == 'queued'], [scheduleTime <= now], ascending by
    [scheduleTime] (ties by document id), at most [limit] documents. *)

Definition due_leb (a b : string * Job) : bool :=
  (scheduleTime a.2 <? scheduleTime b.2)
  || ((scheduleTime a.2 =? scheduleTime b.2) && String.leb a.1 b.1).

Definition due_before (a b : string * Job) : Prop := Is_true (due_leb a b).

Definition is_due (now : Z) (d : string * Job) : Prop :=
  status d.2 = queued /\ scheduleTime d.2 <= now.

#[global] Instance is_due_dec now d : Decision (is_due now d) :=
  and_dec _ _.

Definition due_query (now limit : Z) (jobs : gmap string Job)
  : list (string * Job) :=
  take (Z.to_nat limit)
       (merge_sort due_before (filter (is_due now) (map_to_list jobs))).

Section Scheduler.

(** The collaborators: the instant returned by the n-th read of the clock,
    the gateway's answer to a message given the calls made before it, and
    [Timestamp.fromDate(new Date(v))]. *)
Variable clock : nat -> Z.
Variable gateway : list Message -> Message -> Outcome string.
Variable timestampFromDate : Value -> Outcome Z.
Variable cfg : Config.

(** [nowTs] (lines 38-40) *)
Definition nowTs : M Z :=
  fun w => (Ok (clock (clock_reads w)), tick w).

(** [messaging.send(message, false)] *)
Definition messaging_send (msg : Message) : M string :=
  fun w => (gateway (gateway_calls w) msg, push_call msg w).

(** The claim transaction (lines 98-106).  Its callback returns nothing
    in all three branches, and [main] does not look at what it did. *)
Definition claim_tx (id : string) : M unit :=
  snap <- doc_get id ;;
  match snap with
  | None => ret tt
  | Some cur =>
      if negb (bool_decide (status cur = queued)) then ret tt
      else
        t <- nowTs ;;
        doc_update id (claim_patch t)
  end.

(** Line 116. *)
Definition expiry_timestamp (data : Job) : Outcome (option Z) :=
  if js_truthy (expiry data) then
    match timestampFromDate (expiry data) with
    | Ok t => Ok (Some t)
    | Throw e => Throw e
    end
  else Ok None.

(** Lines 108-116. *)
Definition read_fields (data : Job) : M Fields :=
  expiry <- lift (expiry_timestamp data) ;;
  ret (fields_of data expiry).

(** The [try] block (lines 160-180). *)
Definition send_and_log (id : string) (f : Fields) (message : Message)
  : M unit :=
  (if DRY_RUN cfg then
     t <- nowTs ;;
     doc_update id (sent_patch "dry-run" t)
   else
     res <- messaging_send message ;;
     t <- nowTs ;;
     doc_update id (sent_patch "ok" t)) ;;
  t <- nowTs ;;
  add_notification (log_doc f t).

(** The [catch] block (lines 181-200). *)
Definition on_failure (id : string) (data : Job) (f : Fields)
           (err : JsError) : M unit :=
  let msg := catch_text err in
  let attempts := num_or_zero (attemptCount data) + 1 in
  if (attempts <? MAX_ATTEMPTS cfg) && isRetryableError err then
    t <- nowTs ;;
    doc_update id (retry_patch attempts msg t) ;;
    sleep 200
  else
    t <- nowTs ;;
    doc_update id (error_patch attempts msg t) ;;
    t' <- nowTs ;;
    add_failed_notification (dead_letter id f msg attempts t').

(** What follows the claim transaction in the body of the inner [for]
    (lines 108-201).  The result tells whether [processed++] was reached
    ([false] for the [continue] of the missing-target branch). *)
Definition dispatch_and_record (id : string) (data : Job) : M bool :=
  f <- read_fields data ;;
  if str_falsy (f_topic f) && str_falsy (f_token f) then
    t <- nowTs ;;
    doc_update id (missing_target_patch t) ;;
    ret false
  else
    let message := build_message f in
    try_catch (send_and_log id f message) (on_failure id data f) ;;
    ret true.

(** The body of the inner [for] (lines 94-202): [doc.id], [doc.data()]. *)
Definition process_doc (doc : string * Job) : M bool :=
  claim_tx doc.1 ;;
  dispatch_and_record doc.1 doc.2.

(** [for (const doc of dueSnap.docs) { ... }] *)
Fixpoint process_page (docs : list (string * Job)) (processed : Z) : M Z :=
  match docs with
  | [] => ret processed
  | doc :: rest =>
      counted <- process_doc doc ;;
      process_page rest (if counted : bool then processed + 1 else processed)
  end.

(** A job has a delivery target when one of its two sanitised addressing
    fields is there. *)
Definition has_target (data : Job) : Prop :=
  is_Some (toSafeString (topic data)) \/ is_Some (toSafeString (token data)).

Section Driver.

(** How the store answers the query of lines 81-87, given the instant
    passed as [now], the limit and the collection. *)
Variable query : Z -> Z -> gmap string Job -> list (string * Job).

Definition fetch : M (list (string * Job)) :=
  now <- nowTs ;;
  jobs <- (fun w => (Ok (scheduled_notifications w), w)) ;;
  ret (query now (BATCH_LIMIT cfg) jobs).

(** One turn of the outer [for] (lines 80-204); the flag is [true] when
    the turn ends in [break]. *)
Definition batch_body (processed : Z) : M (Z * bool) :=
  docs <- fetch ;;
  note_page (List.length docs) ;;
  match docs with
  | [] => ret (processed, true)
  | _ :: _ =>
      n <- process_page docs processed ;;
      ret (n, Z.of_nat (List.length docs) <? BATCH_LIMIT cfg)
  end.

(** [for (let batch = 0; batch < MAX_BATCHES; batch++) { ... }] *)
Equations? batch_loop (batch processed : Z) (w : World)
  : Outcome Z * World
  by wf (Z.to_nat (MAX_BATCHES cfg - batch)) lt :=
  batch_loop batch processed w with Z_lt_dec batch (MAX_BATCHES cfg) => {
    | right _ => (Ok processed, w)
    | left _ with batch_body processed w => {
        | (Throw e, w1) => (Throw e, w1)
        | (Ok (n, true), w1) => (Ok n, w1)
        | (Ok (n, false), w1) => batch_loop (batch + 1) n w1 } }.
Proof. lia. Qed.

End Driver.

(** [main] (lines 65-207), from the first batch on, against a store that
    answers the query with [due_query]; the result is [processed]. *)
Definition main : M Z := batch_loop due_query 0 0.

End Scheduler.

(** ** Vocabulary of the statements *)

Section Deliveries.

Variable clock : nat -> Z.
Variable gateway : list Message -> Message -> Outcome string.
Variable timestampFromDate : Value -> Outcome Z.
Variable cfg : Config.

(** One delivery of the document [id] as a page of the due query brings
    it: the clock is read, the snapshot is the stored document, and the
    body of the inner loop runs on it when it is queued and due at the
    instant read. *)
Definition deliver_if_due (id : string) : M unit :=
  now <- nowTs clock ;;
  snap <- doc_get id ;;
  match snap with
  | Some data =>
      if bool_decide (is_due now (id, data))
      then process_doc clock gateway timestampFromDate cfg (id, data) ;; ret tt
      else ret tt
  | None => ret tt
  end.

(** [n] such deliveries in a row. *)
Fixpoint deliveries (n : nat) (id : string) : M unit :=
  match n with
  | O => ret tt
  | S n' => deliver_if_due id ;; deliveries n' id
  end.

End Deliveries.

(** The content and scheduling fields of a job, which no [update] of the
    script touches. *)
Definition content (j : Job)
  : Value * Value * Value * Value * Value * Value * Value * Value * Value * Z :=
  (title j, body j, topic j, token j, imageUrl j, action j,
   additionalData j, debug j, expiry j, scheduleTime j).

(** What an [update] does to the lifecycle: document, new status, new
    attempt count. *)
Definition transition (u : string * Patch)
  : string * option Status * option Z :=
  (u.1, set_status u.2, set_attemptCount u.2).

(** [r] rounds of [queued -> processing -> queued], the attempt count going
    from [k] to [k + r]. *)
Fixpoint retry_cycles (id : string) (k : Z) (r : nat)
  : list (string * option Status * option Z) :=
  match r with
  | O => []
  | S r' =>
      (id, Some processing, None) :: (id, Some queued, Some (k + 1))
        :: retry_cycles id (k + 1) r'
  end.

(** Exactly one of the two addressing fields of a message is set. *)
Definition exactly_one_target (m : Message) : Prop :=
  (is_Some (m_topic m) /\ m_token m = None)
  \/ (m_topic m = None /\ is_Some (m_token m)).

(** A page that lets the batch loop go on: not empty and not short. *)
Definition full_page (cfg : Config) (n : nat) : Prop :=
  n <> 0%nat /\ BATCH_LIMIT cfg <= Z.of_nat n.

(** The classifier as the specification words it: the code belongs to one
    of five transient classes (rate limit, resource exhaustion, service
    unavailable, aborted, deadline), or the message matches the pattern. *)
Inductive TransientClass : Type :=
| RateLimit | ResourceExhaustion | ServiceUnavailable | Aborted | Deadline.

Definition class_of_code (c : string) : option TransientClass :=
  if String.eqb c "quota-exceeded" then Some RateLimit
  else if String.eqb c "resource-exhausted" then Some ResourceExhaustion
  else if String.eqb c "unavailable" then Some ServiceUnavailable
  else if String.eqb c "aborted" then Some Aborted
  else if String.eqb c "deadline-exceeded" then Some Deadline
  else None.

Definition spec_retryable (e : JsError) : Prop :=
  (exists c cls, error_code e = VStr c /\ class_of_code c = Some cls)
  \/ transient_pattern_test (error_text e) = true.

(** A field that is missing, [null] or the empty string. *)
Definition absent_or_empty (v : Value) : Prop :=
  v = VUndef \/ v = VNull \/ v = VStr "".

(** The instant the next read of the clock returns. *)
Definition now_at (clock : nat -> Z) (w : World) : Z := clock (clock_reads w).

(** The job [id] waits for its next attempt: it is queued, [k] attempts
    are on record, and its content is that of [j0]. *)
Definition waiting (id : string) (j0 : Job) (k : Z) (w : World) : Prop :=
  exists j,
    scheduled_notifications w !! id = Some j
    /\ status j = queued
    /\ num_or_zero (attemptCount j) = k
    /\ content j = content j0.

(** An [update] that records a failure carries, as [lastResult], the text
    of a retryable error thrown by the gateway. *)
Definition records_error_text
           (gateway : list Message -> Message -> Outcome string)
           (u : string * Patch) : Prop :=
  set_status u.2 = Some processing
  \/ exists calls msg e,
      gateway calls msg = Throw e
      /\ isRetryableError e = true
      /\ set_lastResult u.2 = Some (catch_text e).

(** ** Sample data *)

Definition sample_clock (n : nat) : Z := 1000 + Z.of_nat n.

Definition epoch_conversion (v : Value) : Outcome Z := Ok 0.

Definition err_unavailable : JsError :=
  {| err_code := VStr "messaging/server-unavailable";
     err_errorInfo_code := VStr "messaging/server-unavailable";
     err_message := Some "The server is unavailable";
     err_name := "FirebaseMessagingError" |}.

Definition err_invalid_argument : JsError :=
  {| err_code := VStr "messaging/invalid-argument";
     err_errorInfo_code := VStr "messaging/invalid-argument";
     err_message := Some "The registration token is not valid";
     err_name := "FirebaseMessagingError" |}.

Definition err_deadline : JsError :=
  {| err_code := VStr "deadline-exceeded";
     err_errorInfo_code := VUndef;
     err_message := Some "request timed out";
     err_name := "Error" |}.

Definition gateway_accepts (calls : list Message) (m : Message)
  : Outcome string := Ok "projects/p/messages/1".

Definition gateway_unavailable (calls : list Message) (m : Message)
  : Outcome string := Throw err_unavailable.

Definition gateway_rejects (calls : list Message) (m : Message)
  : Outcome string := Throw err_invalid_argument.

(** [{title: "X", body: "Y", topic: "news", status: "queued",
     attemptCount: 0}], due since instant 999. *)
Definition job_news : Job :=
  {| title := VStr "X"; body := VStr "Y"; topic := VStr "news";
     token := VUndef; imageUrl := VUndef; action := VUndef;
     additionalData := VUndef; debug := VUndef; expiry := VUndef;
     scheduleTime := 999; status := queued; attemptCount := Some 0;
     lastResult := None; processingAt := None; sentAt := None;
     errorAt := None |}.

(** A job with neither a topic nor a token. *)
Definition job_untargeted : Job :=
  {| title := VStr "X"; body := VStr "Y"; topic := VUndef;
     token := VUndef; imageUrl := VUndef; action := VUndef;
     additionalData := VUndef; debug := VUndef; expiry := VUndef;
     scheduleTime := 999; status := queued; attemptCount := None;
     lastResult := None; processingAt := None; sentAt := None;
     errorAt := None |}.

(** The same job with a device token next to its topic. *)
Definition job_both : Job :=
  {| title := VStr "X"; body := VStr "Y"; topic := VStr "news";
     token := VStr "device-1"; imageUrl := VUndef; action := VUndef;
     additionalData := VUndef; debug := VUndef; expiry := VUndef;
     scheduleTime := 999; status := queued; attemptCount := Some 0;
     lastResult := None; processingAt := None; sentAt := None;
     errorAt := None |}.

(** A job whose topic is the empty string and whose token is [null]. *)
Definition job_blank : Job :=
  {| title := VStr "X"; body := VStr "Y"; topic := VStr "";
     token := VNull; imageUrl := VUndef; action := VUndef;
     additionalData := VUndef; debug := VUndef; expiry := VUndef;
     scheduleTime := 999; status := queued; attemptCount := None;
     lastResult := None; processingAt := None; sentAt := None;
     errorAt := None |}.

Definition world_of (jobs : gmap string Job) : World :=
  {| scheduled_notifications := jobs; notifications := [];
     failed_notifications := []; updates := []; gateway_calls := [];
     page_sizes := []; clock_reads := 0 |}.

Definition dry_config : Config :=
  {| DRY_RUN := true; BATCH_LIMIT := 50; MAX_BATCHES := 10;
     MAX_ATTEMPTS := 5 |}.

(** Two invocations overlap: both run the due query before either
    processes its page, then the first processes its page, then the
    second. *)
Definition overlapping_runs (w : World) : World :=
  let page1 := due_query 1000 50 (scheduled_notifications w) in
  let page2 := due_query 1000 50 (scheduled_notifications w) in
  let w1 :=
    (process_page sample_clock gateway_accepts epoch_conversion
                  default_config page1 0 w).2 in
  (process_page sample_clock gateway_accepts epoch_conversion
                default_config page2 0 w1).2.

(** One invocation of [main] with the default configuration against a
    gateway that is unavailable. *)
Definition run_unavailable (w : World) : World :=
  (main sample_clock gateway_unavailable epoch_conversion default_config w).2.

(** ** Vocabulary of the further properties *)

(** The values [toSafeString] treats as absent. *)
Inductive blank : Value -> Prop :=
| blank_undefined : blank VUndef
| blank_null : blank VNull
| blank_string : blank (VStr "")
| blank_array : blank (VArr [])
| blank_singleton x : blank x -> blank (VArr [x]).

Fixpoint ends_with (p s : string) : bool :=
  String.eqb p s ||
  match s with
  | EmptyString => false
  | String _ s' => ends_with p s'
  end.

(** [/^1|true$/i.test(String(process.env.DRY_RUN || ''))] (line 73): the
    anchors bind tighter than the alternation, so the pattern is "starts
    with 1" or "ends with true". *)
Definition dry_run_flag (env : option string) : bool :=
  let s := default "" env in
  starts_with "1" s || ends_with "true" (lower s).

(** The six built-in entries of the data block (lines 133-138) and the
    entries the spread of line 139 adds after them. *)
Definition builtin_data (f : Fields) : list (string * Value) :=
  [ ("title", VStr (f_title f));
    ("body", VStr (f_body f));
    ("imageUrl", VStr (default "" (f_imageUrl f)));
    ("action", VStr (default "" (f_action f)));
    ("debug", VStr (if f_debug f then "true" else "false"));
    ("screen", VStr "/notifications_screen") ].

Definition extra_data (f : Fields) : list (string * Value) :=
  own_fields (default (VObj []) (f_additionalData f)).

(** What a stretch of the run adds to the traces and to the two
    append-only collections. *)
Record Delta : Type := mkDelta {
  d_updates : list (string * Patch);
  d_notifications : list LogDoc;
  d_failed : list DeadLetter;
  d_calls : list Message
}.

Definition no_delta : Delta := mkDelta [] [] [] [].

Definition delta_app (a b : Delta) : Delta :=
  mkDelta (d_updates a ++ d_updates b)
          (d_notifications a ++ d_notifications b)
          (d_failed a ++ d_failed b)
          (d_calls a ++ d_calls b).

(** The collection after the field objects [us] have been applied, in
    order, to the documents they name. *)
Definition replay (us : list (string * Patch)) (jobs : gmap string Job)
  : gmap string Job :=
  foldl (fun m u => alter (apply_patch u.2) u.1 m) jobs us.

(** From [w] to [w']: the traces and the two append-only collections grew by
    [d], and the job collection is the old one with the new updates
    replayed. *)
Definition evolves (w w' : World) (d : Delta) : Prop :=
  updates w' = updates w ++ d_updates d
  /\ scheduled_notifications w'
     = replay (d_updates d) (scheduled_notifications w)
  /\ notifications w' = notifications w ++ d_notifications d
  /\ failed_notifications w' = failed_notifications w ++ d_failed d
  /\ gateway_calls w' = gateway_calls w ++ d_calls d
  /\ (clock_reads w <= clock_reads w')%nat.

Definition marks_sent (u : string * Patch) : Prop :=
  set_status u.2 = Some sent.

Definition marks_dead (u : string * Patch) : Prop :=
  set_status u.2 = Some error /\ is_Some (set_attemptCount u.2).

Definition requeue_bounded (cfg : Config) (u : string * Patch) : Prop :=
  set_status u.2 = Some queued ->
  exists a, set_attemptCount u.2 = Some a /\ a < MAX_ATTEMPTS cfg.

Definition records_result (u : string * Patch) : Prop :=
  set_status u.2 = Some processing \/ is_Some (set_lastResult u.2).

#[global] Instance marks_sent_dec u : Decision (marks_sent u) :=
  ltac:(unfold marks_sent; apply _).

#[global] Instance marks_dead_dec u : Decision (marks_dead u) :=
  ltac:(unfold marks_dead; apply _).

#[global] Instance has_target_dec data : Decision (has_target data) :=
  ltac:(unfold has_target; apply _).

(** What every stretch of the run respects. *)
Definition lawful (cfg : Config) (d : Delta) : Prop :=
  Forall (requeue_bounded cfg) (d_updates d)
  /\ Forall records_result (d_updates d)
  /\ List.length (d_notifications d)
     = List.length (filter marks_sent (d_updates d))
  /\ (List.length (d_failed d)
      <= List.length (filter marks_dead (d_updates d)))%nat
  /\ (DRY_RUN cfg = true ->
      d_calls d = [] /\ d_failed d = []
      /\ Forall (fun u => set_status u.2 <> Some queued) (d_updates d)).

(** What one turn of the inner loop respects on top of that. *)
Definition doc_step (cfg : Config) (doc : string * Job) (r : Outcome bool)
           (d : Delta) : Prop :=
  Forall (fun u => u.1 = doc.1) (d_updates d)
  /\ (List.length (d_calls d) <= 1)%nat
  /\ (List.length (d_notifications d) + List.length (d_failed d) <= 1)%nat
  /\ (forall b, r = Ok b ->
        (b = true <-> has_target doc.2)
        /\ (DRY_RUN cfg = false ->
            List.length (d_calls d) = if b then 1%nat else 0%nat)).

(** The documents of a page that have a delivery target. *)
Definition targeted (docs : list (string * Job)) : list (string * Job) :=
  filter (fun d => has_target d.2) docs.


(** What the inner loop over a page respects on top of [lawful]. *)
Definition page_step (cfg : Config) (docs : list (string * Job)) (p : Z)
           (r : Outcome Z) (d : Delta) : Prop :=
  Forall (fun u => u.1 ∈ docs.*1) (d_updates d)
  /\ (List.length (d_calls d) <= List.length docs)%nat
  /\ (forall n, r = Ok n ->
        n = p + Z.of_nat (List.length (targeted docs))
        /\ (DRY_RUN cfg = false -> Z.of_nat (List.length (d_calls d)) = n - p)).


(** ** Further sample data *)

Definition err_bad_date : JsError :=
  {| err_code := VUndef; err_errorInfo_code := VUndef;
     err_message :=
       Some "Value for argument seconds is not a valid integer.";
     err_name := "Error" |}.

(** A conversion that rejects every value. *)
Definition failing_conversion (v : Value) : Outcome Z := Throw err_bad_date.

(** The sample job with an expiry. *)
Definition job_expiring : Job :=
  {| title := VStr "X"; body := VStr "Y"; topic := VStr "news";
     token := VUndef; imageUrl := VUndef; action := VUndef;
     additionalData := VUndef; debug := VUndef; expiry := VStr "soon";
     scheduleTime := 999; status := queued; attemptCount := Some 0;
     lastResult := None; processingAt := None; sentAt := None;
     errorAt := None |}.

(** The sample job, already delivered. *)
Definition job_delivered : Job :=
  {| title := VStr "X"; body := VStr "Y"; topic := VStr "news";
     token := VUndef; imageUrl := VUndef; action := VUndef;
     additionalData := VUndef; debug := VUndef; expiry := VUndef;
     scheduleTime := 999; status := sent; attemptCount := Some 0;
     lastResult := Some "ok"; processingAt := Some 1001; sentAt := Some 1002;
     errorAt := None |}.

(** The sample job with extra data that reuses the key [title]. *)
Definition job_extra : Job :=
  {| title := VStr "X"; body := VStr "Y"; topic := VStr "news";
     token := VUndef; imageUrl := VUndef; action := VUndef;
     additionalData := VObj [("title", VStr "Z"); ("campaign", VStr "c1")];
     debug := VUndef; expiry := VUndef;
     scheduleTime := 999; status := queued; attemptCount := Some 0;
     lastResult := None; processingAt := None; sentAt := None;
     errorAt := None |}.

Definition two_jobs : gmap string Job :=
  {[ "a" := job_news; "b" := job_untargeted ]}.

(** A job with neither a topic nor a token, and with an expiry. *)
Definition job_untargeted_expiring : Job :=
  {| title := VStr "X"; body := VStr "Y"; topic := VUndef;
     token := VUndef; imageUrl := VUndef; action := VUndef;
     additionalData := VUndef; debug := VUndef; expiry := VStr "soon";
     scheduleTime := 999; status := queued; attemptCount := None;
     lastResult := None; processingAt := None; sentAt := None;
     errorAt := None |}.

(** A job whose topic is the empty string and whose token is [null], with
    an expiry. *)
Definition job_blank_expiring : Job :=
  {| title := VStr "X"; body := VStr "Y"; topic := VStr "";
     token := VNull; imageUrl := VUndef; action := VUndef;
     additionalData := VUndef; debug := VUndef; expiry := VStr "soon";
     scheduleTime := 999; status := queued; attemptCount := None;
     lastResult := None; processingAt := None; sentAt := None;
     errorAt := None |}.

(** A job that carries every optional field. *)
Definition job_full : Job :=
  {| title := VStr "X"; body := VStr "Y"; topic := VStr "news";
     token := VStr "device-1"; imageUrl := VStr "https://example.org/i.png";
     action := VStr "open"; additionalData := VObj [("campaign", VStr "c1")];
     debug := VBool true; expiry := VNum 1700000000000;
     scheduleTime := 999; status := queued; attemptCount := Some 0;
     lastResult := None; processingAt := None; sentAt := None;
     errorAt := None |}.

(** A queued job next to one already delivered. *)
Definition mixed_jobs : gmap string Job :=
  {[ "a" := job_news; "c" := job_delivered ]}.


(** ** The two earlier variants of the script

    [src/infra-scheduler/src/sendScheduled.ts] and [src/unnamed/part_001]
    share the helpers, the claim transaction, the sanitising of the fields
    and the message literal with the final variant.  [cfg] is read for the
    settings a variant has ([MAX_ATTEMPTS] by neither). *)

(** The field object of the plain error update,
    [{ status: 'error', errorAt: nowTs(), lastResult: msg }]. *)
Definition failure_patch (msg : string) (t : Z) : Patch :=
  {| set_status := Some error; set_attemptCount := None;
     set_lastResult := Some msg; set_processingAt := None;
     set_sentAt := None; set_errorAt := Some t |}.

Module SendScheduled.

Section Variant.

Variable clock : nat -> Z.
Variable gateway : list Message -> Message -> Outcome string.
Variable timestampFromDate : Value -> Outcome Z.
Variable cfg : Config.

(** The [catch] block (sendScheduled.ts, lines 169-180): a retryable
    failure goes back to [queued], any other to [error]. *)
Definition on_failure (id : string) (data : Job) (err : JsError) : M unit :=
  let msg := catch_text err in
  if isRetryableError err then
    t <- nowTs clock ;;
    doc_update id
      (retry_patch (num_or_zero (attemptCount data) + 1) msg t) ;;
    sleep 200
  else
    t <- nowTs clock ;;
    doc_update id (failure_patch msg t).

(** Lines 96-181. *)
Definition dispatch_and_record (id : string) (data : Job) : M bool :=
  f <- read_fields timestampFromDate data ;;
  if str_falsy (f_topic f) && str_falsy (f_token f) then
    t <- nowTs clock ;;
    doc_update id (missing_target_patch t) ;;
    ret false
  else
    let message := build_message f in
    try_catch (send_and_log clock gateway cfg id f message)
              (on_failure id data) ;;
    ret true.

(** The body of the inner [for] (lines 82-182). *)
Definition process_doc (doc : string * Job) : M bool :=
  claim_tx clock doc.1 ;;
  dispatch_and_record doc.1 doc.2.

Fixpoint process_page (docs : list (string * Job)) (processed : Z) : M Z :=
  match docs with
  | [] => ret processed
  | doc :: rest =>
      counted <- process_doc doc ;;
      process_page rest (if counted : bool then processed + 1 else processed)
  end.

(** One turn of the outer [for] (lines 68-184). *)
Definition batch_body
           (query : Z -> Z -> gmap string Job -> list (string * Job))
           (processed : Z) : M (Z * bool) :=
  docs <- fetch clock cfg query ;;
  note_page (List.length docs) ;;
  match docs with
  | [] => ret (processed, true)
  | _ :: _ =>
      n <- process_page docs processed ;;
      ret (n, Z.of_nat (List.length docs) <? BATCH_LIMIT cfg)
  end.

(** [for (let batch = 0; batch < MAX_BATCHES; batch++) { ... }] *)
Equations? batches
           (query : Z -> Z -> gmap string Job -> list (string * Job))
           (batch processed : Z) (w : World)
  : Outcome Z * World
  by wf (Z.to_nat (MAX_BATCHES cfg - batch)) lt :=
  batches query batch processed w
    with Z_lt_dec batch (MAX_BATCHES cfg) => {
      | right _ => (Ok processed, w)
      | left _ with batch_body query processed w => {
          | (Throw e, w1) => (Throw e, w1)
          | (Ok (n, true), w1) => (Ok n, w1)
          | (Ok (n, false), w1) => batches query (batch + 1) n w1 } }.
Proof. lia. Qed.

(** [main] (lines 53-186), from the first batch on. *)
Definition main : M Z := batches due_query 0 0.

(** One delivery of the document [id] as a page of the due query brings
    it, and [n] of them in a row. *)
Definition deliver_if_due (id : string) : M unit :=
  now <- nowTs clock ;;
  snap <- doc_get id ;;
  match snap with
  | Some data =>
      if bool_decide (is_due now (id, data))
      then process_doc (id, data) ;; ret tt
      else ret tt
  | None => ret tt
  end.

Fixpoint deliveries (n : nat) (id : string) : M unit :=
  match n with
  | O => ret tt
  | S n' => deliver_if_due id ;; deliveries n' id
  end.

End Variant.

End SendScheduled.

Module FirstVariant.

Section Variant.

Variable clock : nat -> Z.
Variable gateway : list Message -> Message -> Outcome string.
Variable timestampFromDate : Value -> Outcome Z.

(** The [try] block (part_001, lines 127-144). *)
Definition send_and_log (id : string) (f : Fields) (message : Message)
  : M unit :=
  res <- messaging_send gateway message ;;
  t <- nowTs clock ;;
  doc_update id (sent_patch "ok" t) ;;
  t <- nowTs clock ;;
  add_notification (log_doc f t).

(** The [catch] block (lines 145-149). *)
Definition on_failure (id : string) (err : JsError) : M unit :=
  let msg := catch_text err in
  t <- nowTs clock ;;
  doc_update id (failure_patch msg t).

(** The body of the [for] (lines 68-150): no target check. *)
Definition process_doc (doc : string * Job) : M unit :=
  claim_tx clock doc.1 ;;
  f <- read_fields timestampFromDate doc.2 ;;
  let message := build_message f in
  try_catch (send_and_log doc.1 f message) (on_failure doc.1).

Fixpoint process_page (docs : list (string * Job)) : M unit :=
  match docs with
  | [] => ret tt
  | doc :: rest => process_doc doc ;; process_page rest
  end.

(** [main] (lines 46-151): one page of at most 50 documents. *)
Definition main : M unit :=
  now <- nowTs clock ;;
  jobs <- (fun w => (Ok (scheduled_notifications w), w)) ;;
  let docs := due_query now 50 jobs in
  match docs with
  | [] => ret tt
  | _ :: _ => process_page docs
  end.

End Variant.

End FirstVariant.

(** * Properties *)

(** ** The classifier *)

Lemma starts_with_spec (p s : string) :
  starts_with p s = true <-> exists post, s = p +:+ post.
Proof.
  revert s. induction p as [|a p IH]; intros s; simpl.
  - split; [intros _; by exists s | done].
  - destruct s as [|b s].
    + split; [done | intros [post H]; discriminate].
    + rewrite andb_true_iff, Ascii.eqb_eq, IH. split.
      * intros [-> [post ->]]. by exists post.
      * intros [post H]. injection H as -> ->. eauto.
Qed.

Lemma occurs_in_spec (p s : string) :
  occurs_in p s = true <-> exists pre post, s = pre +:+ p +:+ post.
Proof.
  induction s as [|b s IH].
  - simpl. rewrite orb_false_r, starts_with_spec. split.
    + intros [post H]. by exists "", post.
    + intros [pre [post H]]. destruct pre; [by exists post | discriminate].
  - cbn [occurs_in]. rewrite orb_true_iff, IH, starts_with_spec. split.
    + intros [[post H] | [pre [post H]]].
      * by exists "", post.
      * exists (String b pre), post. simpl. by rewrite H.
    + intros [pre [post H]]. destruct pre as [|c pre].
      * left. by exists post.
      * right. simpl in H. injection H as _ H. by exists pre, post.
Qed.

Lemma js_is_string_spec v lit : js_is_string v lit = true <-> v = VStr lit.
Proof.
  destruct v; simpl; try (split; [discriminate | congruence]).
  rewrite String.eqb_eq. split; congruence.
Qed.

(** C8, as the code has it: an error is retryable exactly when its code
    ([code], or [errorInfo.code] when [code] is falsy) is one of the four
    strings [resource-exhausted], [quota-exceeded], [aborted],
    [unavailable], or when one of the five words [429], [quota],
    [exhausted], [unavailable], [deadline] occurs in its text, letters
    compared without regard to case.  Every other error is fatal.  The
    verdict is a function of the error value alone. *)
Theorem isRetryableError_iff (e : JsError) :
  isRetryableError e = true <->
  (exists c, In c transient_codes /\ error_code e = VStr c) \/
  (exists p pre post,
      In p transient_words /\ lower (error_text e) = pre +:+ p +:+ post).
Proof.
  unfold isRetryableError, transient_pattern_test.
  rewrite !orb_true_iff, !js_is_string_spec, existsb_exists.
  split.
  - intros [[[[H|H]|H]|H]|[p [Hin Hp]]].
    1-4: left; eexists; split; [|exact H]; simpl; tauto.
    right. apply occurs_in_spec in Hp as [pre [post Hp]].
    by exists p, pre, post.
  - intros [[c [Hin Hc]]|[p [pre [post [Hin Hp]]]]].
    + simpl in Hin. left. destruct Hin as [<-|[<-|[<-|[<-|[]]]]]; tauto.
    + right. exists p. split; [done|]. apply occurs_in_spec. eauto.
Qed.

(** C8, as the specification words it, fails on an error whose code is of
    the deadline class and whose text does not match the pattern: the
    specification calls it retryable, the code classifies it as fatal.
    (The codes the source tests are status names in kebab case; the
    deadline status of that family is [deadline-exceeded].) *)
Lemma deadline_code_is_fatal :
  ~ (isRetryableError err_deadline = true <-> spec_retryable err_deadline).
Proof.
  intros [_ H]. enough (isRetryableError err_deadline = true) by done.
  apply H. left. exists "deadline-exceeded", Deadline. split; reflexivity.
Qed.

(** ** The due query *)

(** What the query returns is in the collection, queued and due, and the
    page is no longer than the limit. *)
Lemma due_query_sound now limit (jobs : gmap string Job) id j :
  (id, j) ∈ due_query now limit jobs ->
  jobs !! id = Some j /\ status j = queued /\ scheduleTime j <= now.
Proof.
  unfold due_query. intros Hin.
  apply subseteq_take in Hin.
  rewrite merge_sort_Permutation in Hin.
  apply list_elem_of_filter in Hin as [[Hq Hdue] Hin].
  apply elem_of_map_to_list in Hin. done.
Qed.

Lemma due_query_length now limit (jobs : gmap string Job) :
  (List.length (due_query now limit jobs) <= Z.to_nat limit)%nat.
Proof. unfold due_query. rewrite length_take. lia. Qed.

(** ** The body of the inner loop, branch by branch *)

Lemma toSafeString_nonempty v : toSafeString v <> Some "".
Proof.
  unfold toSafeString. destruct (js_nullish v); [done|].
  destruct (js_String v); simpl; congruence.
Qed.

Lemma str_falsy_toSafeString v :
  str_falsy (toSafeString v) = true <-> toSafeString v = None.
Proof.
  pose proof (toSafeString_nonempty v) as Hne.
  destruct (toSafeString v) as [s|]; simpl; [|done].
  rewrite String.eqb_eq. split; [intros ->; done | done].
Qed.

Lemma toSafeString_absent v : absent_or_empty v -> toSafeString v = None.
Proof. by intros [->|[->| ->]]. Qed.

Lemma content_apply_patch p j : content (apply_patch p j) = content j.
Proof. reflexivity. Qed.

Ltac run :=
  unfold process_doc, dispatch_and_record, claim_tx, read_fields,
    send_and_log, on_failure, try_catch, bind, ret, lift, doc_get,
    doc_update, nowTs, messaging_send, add_notification,
    add_failed_notification, note_page, sleep;
  cbn.

Section Body.

Variable clock : nat -> Z.
Variable gateway : list Message -> Message -> Outcome string.
Variable timestampFromDate : Value -> Outcome Z.
Variable cfg : Config.

Lemma claim_tx_claims id cur w :
  scheduled_notifications w !! id = Some cur -> status cur = queued ->
  claim_tx clock id w
  = (Ok tt, write_doc id (claim_patch (now_at clock w)) cur (tick w)).
Proof.
  intros Hcur Hq. run. rewrite Hcur. cbn.
  rewrite bool_decide_true by done. cbn. by rewrite Hcur.
Qed.

Lemma claim_tx_skips id cur w :
  scheduled_notifications w !! id = Some cur -> status cur <> queued ->
  claim_tx clock id w = (Ok tt, w).
Proof.
  intros Hcur Hq. run. rewrite Hcur. cbn.
  by rewrite bool_decide_false by done.
Qed.

Lemma claim_tx_missing id w :
  scheduled_notifications w !! id = None -> claim_tx clock id w = (Ok tt, w).
Proof. intros Hcur. run. by rewrite Hcur. Qed.

Lemma lacks_target_test data oe :
  str_falsy (f_topic (fields_of data oe))
  && str_falsy (f_token (fields_of data oe)) = true
  <-> ~ has_target data.
Proof.
  unfold has_target. cbn. rewrite andb_true_iff, !str_falsy_toSafeString.
  rewrite !eq_None_not_Some. tauto.
Qed.

Lemma dispatch_missing_target id data cur w oe :
  scheduled_notifications w !! id = Some cur ->
  expiry_timestamp timestampFromDate data = Ok oe ->
  ~ has_target data ->
  dispatch_and_record clock gateway timestampFromDate cfg id data w
  = (Ok false,
     write_doc id (missing_target_patch (now_at clock w)) cur (tick w)).
Proof.
  intros Hcur He Ht. run. rewrite He. cbn.
  apply (lacks_target_test data oe) in Ht. cbn in Ht. rewrite Ht. cbn.
  by rewrite Hcur.
Qed.

Lemma dispatch_dry_run id data cur w oe :
  DRY_RUN cfg = true ->
  scheduled_notifications w !! id = Some cur ->
  expiry_timestamp timestampFromDate data = Ok oe ->
  has_target data ->
  dispatch_and_record clock gateway timestampFromDate cfg id data w
  = (Ok true,
     let w1 :=
       write_doc id (sent_patch "dry-run" (now_at clock w)) cur (tick w) in
     push_notification (log_doc (fields_of data oe) (now_at clock w1))
                       (tick w1)).
Proof.
  intros Hdry Hcur He Ht. run. rewrite He. cbn.
  destruct (str_falsy _ && str_falsy _) eqn:Hl.
  { apply (lacks_target_test data oe) in Hl. done. }
  rewrite Hdry. cbn. by rewrite Hcur.
Qed.

Lemma dispatch_success id data cur w oe res :
  DRY_RUN cfg = false ->
  scheduled_notifications w !! id = Some cur ->
  expiry_timestamp timestampFromDate data = Ok oe ->
  has_target data ->
  gateway (gateway_calls w) (build_message (fields_of data oe)) = Ok res ->
  dispatch_and_record clock gateway timestampFromDate cfg id data w
  = (Ok true,
     let w1 := push_call (build_message (fields_of data oe)) w in
     let w2 :=
       write_doc id (sent_patch "ok" (now_at clock w1)) cur (tick w1) in
     push_notification (log_doc (fields_of data oe) (now_at clock w2))
                       (tick w2)).
Proof.
  intros Hdry Hcur He Ht Hg. run. rewrite He. cbn.
  destruct (str_falsy _ && str_falsy _) eqn:Hl.
  { apply (lacks_target_test data oe) in Hl. done. }
  rewrite Hdry. cbn. rewrite Hg. cbn. by rewrite Hcur.
Qed.

Lemma dispatch_retry id data cur w oe e :
  DRY_RUN cfg = false ->
  scheduled_notifications w !! id = Some cur ->
  expiry_timestamp timestampFromDate data = Ok oe ->
  has_target data ->
  gateway (gateway_calls w) (build_message (fields_of data oe)) = Throw e ->
  num_or_zero (attemptCount data) + 1 < MAX_ATTEMPTS cfg ->
  isRetryableError e = true ->
  dispatch_and_record clock gateway timestampFromDate cfg id data w
  = (Ok true,
     let w1 := push_call (build_message (fields_of data oe)) w in
     write_doc id
       (retry_patch (num_or_zero (attemptCount data) + 1) (catch_text e)
                    (now_at clock w1))
       cur (tick w1)).
Proof.
  intros Hdry Hcur He Ht Hg Hlt Hr. run. rewrite He. cbn.
  destruct (str_falsy _ && str_falsy _) eqn:Hl.
  { apply (lacks_target_test data oe) in Hl. done. }
  rewrite Hdry. cbn. rewrite Hg. cbn. rewrite Hr, andb_true_r.
  destruct (Z.ltb_spec (num_or_zero (attemptCount data) + 1)
                       (MAX_ATTEMPTS cfg)); [|lia].
  cbn. by rewrite Hcur.
Qed.

Lemma dispatch_dead id data cur w oe e :
  DRY_RUN cfg = false ->
  scheduled_notifications w !! id = Some cur ->
  expiry_timestamp timestampFromDate data = Ok oe ->
  has_target data ->
  gateway (gateway_calls w) (build_message (fields_of data oe)) = Throw e ->
  MAX_ATTEMPTS cfg <= num_or_zero (attemptCount data) + 1
  \/ isRetryableError e = false ->
  undefined_payload_field (fields_of data oe) = None ->
  dispatch_and_record clock gateway timestampFromDate cfg id data w
  = (Ok true,
     let attempts := num_or_zero (attemptCount data) + 1 in
     let w1 := push_call (build_message (fields_of data oe)) w in
     let w2 :=
       write_doc id (error_patch attempts (catch_text e) (now_at clock w1))
                 cur (tick w1) in
     push_failed
       (dead_letter id (fields_of data oe) (catch_text e) attempts
                    (now_at clock w2))
       (tick w2)).
Proof.
  intros Hdry Hcur He Ht Hg Hdead Hfull. run. rewrite He. cbn.
  destruct (str_falsy _ && str_falsy _) eqn:Hl.
  { apply (lacks_target_test data oe) in Hl. done. }
  rewrite Hdry. cbn. rewrite Hg. cbn.
  destruct (_ && isRetryableError e) eqn:Hc.
  { apply andb_true_iff in Hc as [Hc1 Hc2]. apply Z.ltb_lt in Hc1.
    destruct Hdead; [lia | congruence]. }
  cbn. rewrite Hcur. unfold add_failed_notification. cbn.
  by rewrite Hfull.
Qed.

(** The same failure when the payload has an [undefined] field: the error
    update is written, the dead-letter [add] throws, and the error leaves
    the [catch] block. *)
Lemma dispatch_dead_rejected id data cur w oe e field :
  DRY_RUN cfg = false ->
  scheduled_notifications w !! id = Some cur ->
  expiry_timestamp timestampFromDate data = Ok oe ->
  has_target data ->
  gateway (gateway_calls w) (build_message (fields_of data oe)) = Throw e ->
  MAX_ATTEMPTS cfg <= num_or_zero (attemptCount data) + 1
  \/ isRetryableError e = false ->
  undefined_payload_field (fields_of data oe) = Some field ->
  dispatch_and_record clock gateway timestampFromDate cfg id data w
  = (Throw (invalid_document field),
     let attempts := num_or_zero (attemptCount data) + 1 in
     let w1 := push_call (build_message (fields_of data oe)) w in
     tick (write_doc id
             (error_patch attempts (catch_text e) (now_at clock w1))
             cur (tick w1))).
Proof.
  intros Hdry Hcur He Ht Hg Hdead Hfull. run. rewrite He. cbn.
  destruct (str_falsy _ && str_falsy _) eqn:Hl.
  { apply (lacks_target_test data oe) in Hl. done. }
  rewrite Hdry. cbn. rewrite Hg. cbn.
  destruct (_ && isRetryableError e) eqn:Hc.
  { apply andb_true_iff in Hc as [Hc1 Hc2]. apply Z.ltb_lt in Hc1.
    destruct Hdead; [lia | congruence]. }
  cbn. rewrite Hcur. unfold add_failed_notification. cbn.
  by rewrite Hfull.
Qed.

(** The claim transaction always returns, leaves the document in place and
    touches nothing but the document and the clock. *)
Lemma claim_tx_frame id cur w :
  scheduled_notifications w !! id = Some cur ->
  exists w' cur',
    claim_tx clock id w = (Ok tt, w') /\
    scheduled_notifications w' !! id = Some cur' /\
    content cur' = content cur /\
    notifications w' = notifications w /\
    failed_notifications w' = failed_notifications w /\
    gateway_calls w' = gateway_calls w.
Proof.
  intros Hcur. destruct (decide (status cur = queued)) as [Hq|Hq].
  - rewrite (claim_tx_claims _ _ _ Hcur Hq). eexists _, _.
    split; [done|]. cbn. rewrite lookup_insert_eq. done.
  - rewrite (claim_tx_skips _ _ _ Hcur Hq). by eexists _, _.
Qed.

Lemma process_doc_missing_target id data cur w oe :
  scheduled_notifications w !! id = Some cur ->
  expiry_timestamp timestampFromDate data = Ok oe ->
  ~ has_target data ->
  exists w' j',
    process_doc clock gateway timestampFromDate cfg (id, data) w
    = (Ok false, w') /\
    scheduled_notifications w' !! id = Some j' /\
    status j' = error /\
    lastResult j' = Some "missing-target" /\
    gateway_calls w' = gateway_calls w /\
    notifications w' = notifications w /\
    failed_notifications w' = failed_notifications w.
Proof.
  intros Hcur He Ht.
  destruct (claim_tx_frame id cur w Hcur)
    as (w1 & cur1 & Hclaim & Hcur1 & _ & Hn & Hf & Hg).
  unfold process_doc, bind. cbn [fst snd]. rewrite Hclaim.
  rewrite (dispatch_missing_target _ _ _ _ _ Hcur1 He Ht).
  eexists _, _. split; [done|]. cbn. rewrite lookup_insert_eq.
  by rewrite Hn, Hf, Hg.
Qed.

End Body.

(** ** The claims about one turn of the inner loop *)

Section Claims.

Variable clock : nat -> Z.
Variable gateway : list Message -> Message -> Outcome string.
Variable timestampFromDate : Value -> Outcome Z.
Variable cfg : Config.

(** C4, as amended: a job that lacks both a topic and a token, and whose
    expiry is absent or converts to a timestamp, is rejected before the
    gateway is invoked: whatever its stored state and whatever the
    configuration, the body of the loop returns through its [continue],
    the document ends with status [error] and result [missing-target], no
    message reaches the gateway, and neither a history record nor a
    dead-letter record is written.  (The job is read from the store; the
    expiry is converted on line 116, before the target check.) *)
Theorem missing_target_rejected id data cur w oe :
  scheduled_notifications w !! id = Some cur ->
  expiry_timestamp timestampFromDate data = Ok oe ->
  toSafeString (topic data) = None ->
  toSafeString (token data) = None ->
  exists w' j',
    process_doc clock gateway timestampFromDate cfg (id, data) w
    = (Ok false, w') /\
    scheduled_notifications w' !! id = Some j' /\
    status j' = error /\
    lastResult j' = Some "missing-target" /\
    gateway_calls w' = gateway_calls w /\
    notifications w' = notifications w /\
    failed_notifications w' = failed_notifications w.
Proof.
  intros Hcur He Htopic Htoken.
  apply (process_doc_missing_target clock gateway timestampFromDate cfg
           id data cur w oe Hcur He).
  unfold has_target. rewrite Htopic, Htoken. by intros [[? [=]]|[? [=]]].
Qed.

(** C10, as amended: [toSafeString] turns [null], [undefined] and the
    empty string into an absent value, and never returns the empty string;
    so a job whose topic and token are each missing, [null] or empty has no
    target and, when its expiry is absent or converts to a timestamp, ends
    with status [error] and result [missing-target] without a gateway call;
    and no message is ever addressed to an empty string. *)
Theorem blank_targets_are_missing id data cur w oe :
  scheduled_notifications w !! id = Some cur ->
  expiry_timestamp timestampFromDate data = Ok oe ->
  absent_or_empty (topic data) ->
  absent_or_empty (token data) ->
  toSafeString VNull = None /\ toSafeString VUndef = None
  /\ toSafeString (VStr "") = None
  /\ (forall v, toSafeString v <> Some "")
  /\ (forall data' oe',
        m_topic (build_message (fields_of data' oe')) <> Some ""
        /\ m_token (build_message (fields_of data' oe')) <> Some "")
  /\ exists w' j',
      process_doc clock gateway timestampFromDate cfg (id, data) w
      = (Ok false, w') /\
      scheduled_notifications w' !! id = Some j' /\
      status j' = error /\
      lastResult j' = Some "missing-target" /\
      gateway_calls w' = gateway_calls w.
Proof.
  intros Hcur He Htopic Htoken.
  do 3 (split; [reflexivity|]).
  split; [apply toSafeString_nonempty|].
  split; [intros; split; apply toSafeString_nonempty|].
  destruct (process_doc_missing_target clock gateway timestampFromDate cfg
              id data cur w oe Hcur He)
    as (w' & j' & H1 & H2 & H3 & H4 & H5 & _).
  { unfold has_target.
    rewrite (toSafeString_absent _ Htopic), (toSafeString_absent _ Htoken).
    by intros [[? [=]]|[? [=]]]. }
  by exists w', j'.
Qed.

(** C5, as the code has it: the message handed to the gateway mirrors the
    job's two sanitised addressing fields, each being set exactly when the
    job carries it.  At least one is set; exactly one is set only when the
    job carries exactly one, and a job with both a topic and a token yields
    a message with both.  (Live mode; the expiry, when there is one,
    converts to a timestamp.) *)
Theorem message_mirrors_targets id data w oe :
  DRY_RUN cfg = false ->
  expiry_timestamp timestampFromDate data = Ok oe ->
  has_target data ->
  let m := build_message (fields_of data oe) in
  gateway_calls
    (process_doc clock gateway timestampFromDate cfg (id, data) w).2
  = gateway_calls w ++ [m]
  /\ m_topic m = toSafeString (topic data)
  /\ m_token m = toSafeString (token data)
  /\ (is_Some (m_topic m) \/ is_Some (m_token m))
  /\ (exactly_one_target m <->
      ~ (is_Some (toSafeString (topic data))
         /\ is_Some (toSafeString (token data)))).
Proof.
  intros Hdry He Ht m. split; [|split; [done|split; [done|split; [done|]]]].
  - run. rewrite He. cbn.
    destruct (str_falsy _ && str_falsy _) eqn:Hl.
    { apply (lacks_target_test data oe) in Hl. done. }
    rewrite Hdry. cbn.
    repeat (case_match; cbn; unfold ret in *; simplify_eq/=); done.
  - unfold exactly_one_target, has_target in *. cbn.
    rewrite !eq_None_not_Some. tauto.
Qed.


(** C6, as amended: in dry-run mode a job with a target, whose expiry is
    absent or converts to a timestamp, is never handed to the gateway, yet
    it ends with status [sent] and result [dry-run], and the history record
    appended is the one the live path appends after a successful send. *)
Theorem dry_run_skips_gateway id data cur w oe :
  DRY_RUN cfg = true ->
  scheduled_notifications w !! id = Some cur ->
  expiry_timestamp timestampFromDate data = Ok oe ->
  has_target data ->
  exists w' j' rec,
    process_doc clock gateway timestampFromDate cfg (id, data) w
    = (Ok true, w') /\
    gateway_calls w' = gateway_calls w /\
    scheduled_notifications w' !! id = Some j' /\
    status j' = sent /\
    lastResult j' = Some "dry-run" /\
    notifications w' = notifications w ++ [rec] /\
    failed_notifications w' = failed_notifications w /\
    (forall accepting live res,
       DRY_RUN live = false ->
       accepting (gateway_calls w) (build_message (fields_of data oe))
       = Ok res ->
       notifications
         (process_doc clock accepting timestampFromDate live (id, data) w).2
       = notifications w ++ [rec]).
Proof.
  intros Hdry Hcur He Ht.
  destruct (claim_tx_frame clock id cur w Hcur)
    as (w1 & cur1 & Hclaim & Hcur1 & _ & Hn & Hf & Hc).
  unfold process_doc, bind. cbn [fst snd]. rewrite Hclaim.
  rewrite (dispatch_dry_run clock gateway timestampFromDate cfg
             _ _ _ _ _ Hdry Hcur1 He Ht).
  eexists _, _, _. split; [done|]. cbn. rewrite lookup_insert_eq.
  rewrite Hn, Hf, Hc. repeat (split; [done|]).
  intros accepting live res Hlive Hacc. rewrite <- Hc in Hacc.
  rewrite (dispatch_success clock accepting timestampFromDate live
             _ _ _ _ _ _ Hlive Hcur1 He Ht Hacc).
  cbn. by rewrite Hn.
Qed.

(** The failure branch when nothing of the payload is [undefined]: when
    the first dispatch of a claimed job fails with an error that the
    classifier holds fatal, the only writes to the document are the claim
    ([processing]) and then [error], with attempt count 1 and the text of
    the error as result, and one dead-letter record is appended. *)
Lemma fatal_failure_with_payload id data cur w oe e :
  DRY_RUN cfg = false ->
  scheduled_notifications w !! id = Some cur ->
  status cur = queued ->
  expiry_timestamp timestampFromDate data = Ok oe ->
  has_target data ->
  num_or_zero (attemptCount data) = 0 ->
  gateway (gateway_calls w) (build_message (fields_of data oe)) = Throw e ->
  isRetryableError e = false ->
  undefined_payload_field (fields_of data oe) = None ->
  exists w' j' dl t1 t2,
    process_doc clock gateway timestampFromDate cfg (id, data) w
    = (Ok true, w') /\
    scheduled_notifications w' !! id = Some j' /\
    status j' = error /\
    attemptCount j' = Some 1 /\
    lastResult j' = Some (catch_text e) /\
    updates w'
    = updates w
      ++ [(id, claim_patch t1); (id, error_patch 1 (catch_text e) t2)] /\
    failed_notifications w' = failed_notifications w ++ [dl] /\
    dl_refId dl = id /\
    dl_payload dl = fields_of data oe /\
    dl_error dl = catch_text e /\
    dl_attempts dl = 1 /\
    notifications w' = notifications w.
Proof.
  intros Hdry Hcur Hq He Ht Hfirst Hg Hfatal Hfull.
  unfold process_doc, bind. cbn [fst snd].
  rewrite (claim_tx_claims clock _ _ _ Hcur Hq).
  erewrite dispatch_dead; eauto; [|cbn; by rewrite lookup_insert_eq].
  rewrite Hfirst. eexists _, _, _, _, _. split; [done|]. cbn.
  rewrite lookup_insert_eq, <- app_assoc. done.
Qed.

(** The same failure when a field of the payload is [undefined]: the
    [error] update is written, the dead-letter [add] throws, no record is
    appended, and the error leaves the loop body. *)
Lemma fatal_failure_without_payload id data cur w oe e field :
  DRY_RUN cfg = false ->
  scheduled_notifications w !! id = Some cur ->
  status cur = queued ->
  expiry_timestamp timestampFromDate data = Ok oe ->
  has_target data ->
  gateway (gateway_calls w) (build_message (fields_of data oe)) = Throw e ->
  isRetryableError e = false ->
  undefined_payload_field (fields_of data oe) = Some field ->
  exists w' j',
    process_doc clock gateway timestampFromDate cfg (id, data) w
    = (Throw (invalid_document field), w') /\
    scheduled_notifications w' !! id = Some j' /\
    status j' = error /\
    lastResult j' = Some (catch_text e) /\
    failed_notifications w' = failed_notifications w /\
    notifications w' = notifications w.
Proof.
  intros Hdry Hcur Hq He Ht Hg Hfatal Hfield.
  unfold process_doc, bind. cbn [fst snd].
  rewrite (claim_tx_claims clock _ _ _ Hcur Hq).
  erewrite dispatch_dead_rejected; eauto;
    [|cbn; by rewrite lookup_insert_eq].
  eexists _, _. split; [done|]. cbn. by rewrite lookup_insert_eq.
Qed.

End Claims.

(** ** The life of a job whose every dispatch fails with a retryable error *)

Lemma content_has_target j j0 :
  content j = content j0 -> has_target j0 -> has_target j.
Proof. unfold content, has_target. intros [= ? ? -> -> ? ? ? ? ? ?]. done. Qed.

Lemma content_fields_of j j0 oe :
  content j = content j0 -> fields_of j oe = fields_of j0 oe.
Proof.
  unfold content, fields_of. intros [= -> -> -> -> -> -> -> -> ? ?]. done.
Qed.

Lemma content_expiry_timestamp ts j j0 :
  content j = content j0 -> expiry_timestamp ts j = expiry_timestamp ts j0.
Proof.
  unfold content, expiry_timestamp. intros [= ? ? ? ? ? ? ? ? -> ?]. done.
Qed.

Lemma content_scheduleTime j j0 :
  content j = content j0 -> scheduleTime j = scheduleTime j0.
Proof. unfold content. by intros [= ? ? ? ? ? ? ? ? ? ?]. Qed.

Section Lifecycle.

Variable clock : nat -> Z.
Variable gateway : list Message -> Message -> Outcome string.
Variable timestampFromDate : Value -> Outcome Z.
Variable cfg : Config.
Variable id : string.
Variable j0 : Job.
Variable oe : option Z.

Hypothesis live : DRY_RUN cfg = false.
Hypothesis always_due : forall n, scheduleTime j0 <= clock n.
Hypothesis targeted : has_target j0.
Hypothesis expiry_converts : expiry_timestamp timestampFromDate j0 = Ok oe.
Hypothesis always_transient :
  forall calls msg,
    exists e, gateway calls msg = Throw e /\ isRetryableError e = true.

Lemma deliver_unfold j w :
  scheduled_notifications w !! id = Some j ->
  status j = queued ->
  content j = content j0 ->
  deliver_if_due clock gateway timestampFromDate cfg id w
  = match process_doc clock gateway timestampFromDate cfg (id, j) (tick w) with
    | (Ok _, w') => (Ok tt, w')
    | (Throw e, w') => (Throw e, w')
    end.
Proof.
  intros Hj Hq Hc. unfold deliver_if_due, bind, nowTs, doc_get. cbn.
  rewrite Hj. rewrite bool_decide_true; [done|].
  split; [done|]. cbn. rewrite (content_scheduleTime _ _ Hc). apply always_due.
Qed.

Lemma deliver_retry k w :
  waiting id j0 k w ->
  k + 1 < MAX_ATTEMPTS cfg ->
  exists w' us,
    deliver_if_due clock gateway timestampFromDate cfg id w = (Ok tt, w')
    /\ waiting id j0 (k + 1) w'
    /\ updates w' = updates w ++ us
    /\ map transition us = retry_cycles id k 1
    /\ Forall (records_error_text gateway) us
    /\ failed_notifications w' = failed_notifications w
    /\ notifications w' = notifications w.
Proof.
  intros (j & Hj & Hq & Hk & Hc) Hlt.
  rewrite (deliver_unfold j w Hj Hq Hc).
  unfold process_doc, bind. cbn [fst snd].
  rewrite (claim_tx_claims clock id j (tick w) Hj Hq).
  set (w1 := write_doc id _ j _).
  destruct (always_transient (gateway_calls w1)
              (build_message (fields_of j oe))) as (e & Hthrow & Hretry).
  erewrite (dispatch_retry clock gateway timestampFromDate cfg id j _ w1 oe e);
    [ | done | by subst w1; cbn; rewrite lookup_insert_eq
      | by rewrite (content_expiry_timestamp _ _ _ Hc)
      | by apply (content_has_target _ _ Hc) | done | lia | done ].
  eexists _, _. split; [done|]. cbn. split; [|split; [|split; [|split]]].
  - unfold waiting. eexists. cbn. rewrite lookup_insert_eq.
    split; [done|]. cbn. split; [done|]. split; [|done].
    rewrite Hk. destruct (k + 1 =? 0) eqn:E; [|done].
    apply Z.eqb_eq in E. lia.
  - by rewrite <- app_assoc.
  - cbn. by rewrite Hk.
  - constructor; [by left|]. constructor; [|constructor].
    right. by eexists _, _, e.
  - done.
Qed.

Lemma deliver_final k w :
  waiting id j0 k w ->
  MAX_ATTEMPTS cfg <= k + 1 ->
  undefined_payload_field (fields_of j0 oe) = None ->
  exists w' j' us dl e,
    deliver_if_due clock gateway timestampFromDate cfg id w = (Ok tt, w')
    /\ scheduled_notifications w' !! id = Some j'
    /\ status j' = error
    /\ attemptCount j' = Some (k + 1)
    /\ lastResult j' = Some (catch_text e)
    /\ isRetryableError e = true
    /\ updates w' = updates w ++ us
    /\ map transition us
       = [(id, Some processing, None); (id, Some error, Some (k + 1))]
    /\ Forall (records_error_text gateway) us
    /\ failed_notifications w' = failed_notifications w ++ [dl]
    /\ dl_refId dl = id
    /\ dl_attempts dl = k + 1
    /\ dl_error dl = catch_text e
    /\ notifications w' = notifications w.
Proof.
  intros (j & Hj & Hq & Hk & Hc) Hge Hfull.
  rewrite (deliver_unfold j w Hj Hq Hc).
  unfold process_doc, bind. cbn [fst snd].
  rewrite (claim_tx_claims clock id j (tick w) Hj Hq).
  set (w1 := write_doc id _ j _).
  destruct (always_transient (gateway_calls w1)
              (build_message (fields_of j oe))) as (e & Hthrow & Hretry).
  erewrite (dispatch_dead clock gateway timestampFromDate cfg id j _ w1 oe e);
    [ | done | by subst w1; cbn; rewrite lookup_insert_eq
      | by rewrite (content_expiry_timestamp _ _ _ Hc)
      | by apply (content_has_target _ _ Hc) | done | left; lia
      | by rewrite (content_fields_of _ _ _ Hc) ].
  eexists _, _, _, _, e. split; [done|]. cbn. rewrite lookup_insert_eq, Hk.
  split; [done|]. do 4 (split; [done|]).
  split; [by rewrite <- app_assoc|]. split; [done|].
  split; [|done]. constructor; [by left|].
  constructor; [|constructor]. right. by eexists _, _, e.
Qed.

(** The last attempt when a field of the payload is [undefined]: the
    [error] update is written, then the dead-letter [add] throws. *)
Lemma deliver_final_rejected k w field :
  waiting id j0 k w ->
  MAX_ATTEMPTS cfg <= k + 1 ->
  undefined_payload_field (fields_of j0 oe) = Some field ->
  exists w' j' us e,
    deliver_if_due clock gateway timestampFromDate cfg id w
    = (Throw (invalid_document field), w')
    /\ scheduled_notifications w' !! id = Some j'
    /\ status j' = error
    /\ attemptCount j' = Some (k + 1)
    /\ lastResult j' = Some (catch_text e)
    /\ isRetryableError e = true
    /\ updates w' = updates w ++ us
    /\ map transition us
       = [(id, Some processing, None); (id, Some error, Some (k + 1))]
    /\ failed_notifications w' = failed_notifications w
    /\ notifications w' = notifications w.
Proof.
  intros (j & Hj & Hq & Hk & Hc) Hge Hfield.
  rewrite (deliver_unfold j w Hj Hq Hc).
  unfold process_doc, bind. cbn [fst snd].
  rewrite (claim_tx_claims clock id j (tick w) Hj Hq).
  set (w1 := write_doc id _ j _).
  destruct (always_transient (gateway_calls w1)
              (build_message (fields_of j oe))) as (e & Hthrow & Hretry).
  erewrite (dispatch_dead_rejected clock gateway timestampFromDate cfg id j
              _ w1 oe e field);
    [ | done | by subst w1; cbn; rewrite lookup_insert_eq
      | by rewrite (content_expiry_timestamp _ _ _ Hc)
      | by apply (content_has_target _ _ Hc) | done | left; lia
      | by rewrite (content_fields_of _ _ _ Hc) ].
  eexists _, _, _, e. split; [done|]. cbn. rewrite lookup_insert_eq, Hk.
  split; [done|]. do 4 (split; [done|]).
  split; [by rewrite <- app_assoc|]. done.
Qed.

Lemma deliver_idle j w :
  scheduled_notifications w !! id = Some j ->
  status j <> queued ->
  deliver_if_due clock gateway timestampFromDate cfg id w = (Ok tt, tick w).
Proof.
  intros Hj Hq. unfold deliver_if_due, bind, nowTs, doc_get. cbn.
  rewrite Hj. rewrite bool_decide_false; [done|]. by intros [? _].
Qed.

Lemma deliveries_idle n j w :
  scheduled_notifications w !! id = Some j ->
  status j <> queued ->
  exists w',
    deliveries clock gateway timestampFromDate cfg n id w = (Ok tt, w')
    /\ scheduled_notifications w' = scheduled_notifications w
    /\ updates w' = updates w
    /\ failed_notifications w' = failed_notifications w
    /\ notifications w' = notifications w.
Proof.
  intros Hj Hq. revert w Hj. induction n as [|n IH]; intros w Hj.
  - by exists w.
  - cbn. unfold bind. rewrite (deliver_idle j w Hj Hq).
    destruct (IH (tick w) Hj) as (w' & -> & ? & ? & ? & ?). by exists w'.
Qed.

Lemma deliveries_app a b w :
  deliveries clock gateway timestampFromDate cfg (a + b) id w
  = match deliveries clock gateway timestampFromDate cfg a id w with
    | (Ok _, w') => deliveries clock gateway timestampFromDate cfg b id w'
    | (Throw e, w') => (Throw e, w')
    end.
Proof.
  revert w. induction a as [|a IH]; intros w; [done|].
  cbn. unfold bind.
  destruct (deliver_if_due _ _ _ _ id w) as [[[]|e] w1]; [apply IH|done].
Qed.

Lemma retry_phase r :
  forall k w,
    waiting id j0 k w ->
    k + Z.of_nat r < MAX_ATTEMPTS cfg ->
    exists w' us,
      deliveries clock gateway timestampFromDate cfg r id w = (Ok tt, w')
      /\ waiting id j0 (k + Z.of_nat r) w'
      /\ updates w' = updates w ++ us
      /\ map transition us = retry_cycles id k r
      /\ Forall (records_error_text gateway) us
      /\ failed_notifications w' = failed_notifications w
      /\ notifications w' = notifications w.
Proof.
  induction r as [|r IH]; intros k w Hw Hlt.
  - exists w, []. rewrite Z.add_0_r, app_nil_r. by repeat split.
  - destruct (deliver_retry k w Hw) as (w1 & us1 & Hd & Hw1 & Hu1 & Ht1 & Hr1 & Hf1 & Hn1);
      [lia|].
    destruct (IH (k + 1) w1 Hw1) as (w2 & us2 & Hd2 & Hw2 & Hu2 & Ht2 & Hr2 & Hf2 & Hn2);
      [lia|].
    exists w2, (us1 ++ us2). cbn [deliveries]. unfold bind. rewrite Hd, Hd2.
    split; [done|]. split.
    { replace (k + Z.of_nat (S r)) with (k + 1 + Z.of_nat r) by lia. done. }
    split; [by rewrite Hu2, Hu1, app_assoc|].
    split; [by rewrite map_app, Ht1, Ht2|].
    split; [by apply Forall_app|]. split; congruence.
Qed.

(** A queued job with a target and no attempt on record, delivered again
    and again while the gateway answers every dispatch with a retryable
    error, with [MAX_ATTEMPTS >= 1] in live mode.  After [k < MAX_ATTEMPTS]
    deliveries it is queued again with [k] attempts on record, the writes
    being [k] rounds of [processing] then [queued]. *)
Lemma retries_below_max (k : nat) (w : World) :
  scheduled_notifications w !! id = Some j0 ->
  status j0 = queued ->
  num_or_zero (attemptCount j0) = 0 ->
  Z.of_nat k < MAX_ATTEMPTS cfg ->
  exists wk us,
    deliveries clock gateway timestampFromDate cfg k id w = (Ok tt, wk)
    /\ waiting id j0 (Z.of_nat k) wk
    /\ updates wk = updates w ++ us
    /\ map transition us = retry_cycles id 0 k
    /\ Forall (records_error_text gateway) us
    /\ failed_notifications wk = failed_notifications w
    /\ notifications wk = notifications w.
Proof.
  intros Hj Hq Hfresh Hk.
  assert (waiting id j0 0 w) as Hw by (by exists j0).
  destruct (retry_phase k 0 w Hw) as (wk & us & H); [lia|].
  by exists wk, us.
Qed.

(** The delivery number [MAX_ATTEMPTS] of such a job, when a field of the
    dead-letter payload is [undefined]: the document is written
    [processing] then [error] with attempt count [MAX_ATTEMPTS], the
    dead-letter [add] throws, and no record is appended. *)
Lemma retries_end_without_dead_letter (w : World) field :
  1 <= MAX_ATTEMPTS cfg ->
  scheduled_notifications w !! id = Some j0 ->
  status j0 = queued ->
  num_or_zero (attemptCount j0) = 0 ->
  undefined_payload_field (fields_of j0 oe) = Some field ->
  exists w' j' us e,
    deliveries clock gateway timestampFromDate cfg
               (Z.to_nat (MAX_ATTEMPTS cfg)) id w
    = (Throw (invalid_document field), w')
    /\ updates w' = updates w ++ us
    /\ map transition us
       = retry_cycles id 0 (Z.to_nat (MAX_ATTEMPTS cfg - 1))
         ++ [(id, Some processing, None);
             (id, Some error, Some (MAX_ATTEMPTS cfg))]
    /\ scheduled_notifications w' !! id = Some j'
    /\ status j' = error
    /\ attemptCount j' = Some (MAX_ATTEMPTS cfg)
    /\ lastResult j' = Some (catch_text e)
    /\ isRetryableError e = true
    /\ failed_notifications w' = failed_notifications w
    /\ notifications w' = notifications w.
Proof.
  intros Hmax Hj Hq Hfresh Hfield.
  assert (waiting id j0 0 w) as Hw by (by exists j0).
  set (m := MAX_ATTEMPTS cfg) in *.
  destruct (retry_phase (Z.to_nat (m - 1)) 0 w Hw)
    as (w1 & us1 & Hd1 & Hw1 & Hu1 & Ht1 & Hr1 & Hf1 & Hn1); [lia|].
  destruct (deliver_final_rejected _ w1 field Hw1)
    as (w2 & j2 & us2 & e & Hd2 & Hj2 & Hs2 & Ha2 & Hl2 & He2 & Hu2
        & Ht2 & Hf2 & Hn2); [lia|done|].
  exists w2, j2, (us1 ++ us2), e.
  replace (Z.to_nat m) with (Z.to_nat (m - 1) + 1)%nat by lia.
  rewrite deliveries_app, Hd1. cbn [deliveries]. unfold bind.
  rewrite Hd2.
  replace (0 + Z.of_nat (Z.to_nat (m - 1)) + 1) with m in * by lia.
  split; [done|]. split; [by rewrite Hu2, Hu1, app_assoc|].
  split; [by rewrite map_app, Ht1, Ht2|].
  rewrite Hf2, Hf1, Hn2, Hn1. by repeat split.
Qed.

(** The same delivery when nothing of the payload is [undefined]: one
    dead-letter record is appended. *)
Lemma retries_end_with_dead_letter (w : World) :
  1 <= MAX_ATTEMPTS cfg ->
  scheduled_notifications w !! id = Some j0 ->
  status j0 = queued ->
  num_or_zero (attemptCount j0) = 0 ->
  undefined_payload_field (fields_of j0 oe) = None ->
  exists w' j' dl,
    deliveries clock gateway timestampFromDate cfg
               (Z.to_nat (MAX_ATTEMPTS cfg)) id w
    = (Ok tt, w')
    /\ scheduled_notifications w' !! id = Some j'
    /\ status j' = error
    /\ attemptCount j' = Some (MAX_ATTEMPTS cfg)
    /\ failed_notifications w' = failed_notifications w ++ [dl]
    /\ dl_refId dl = id
    /\ dl_attempts dl = MAX_ATTEMPTS cfg
    /\ notifications w' = notifications w.
Proof.
  intros Hmax Hj Hq Hfresh Hfull.
  assert (waiting id j0 0 w) as Hw by (by exists j0).
  set (m := MAX_ATTEMPTS cfg) in *.
  destruct (retry_phase (Z.to_nat (m - 1)) 0 w Hw)
    as (w1 & us1 & Hd1 & Hw1 & Hu1 & Ht1 & Hr1 & Hf1 & Hn1); [lia|].
  destruct (deliver_final _ w1 Hw1)
    as (w2 & j2 & us2 & dl & e & Hd2 & Hj2 & Hs2 & Ha2 & Hl2 & He2 & Hu2
        & Ht2 & Hr2 & Hf2 & Hdl1 & Hdl2 & _ & Hn2); [lia|done|].
  exists w2, j2, dl.
  replace (Z.to_nat m) with (Z.to_nat (m - 1) + 1)%nat by lia.
  rewrite deliveries_app, Hd1. cbn [deliveries]. unfold bind, ret.
  rewrite Hd2.
  replace (0 + Z.of_nat (Z.to_nat (m - 1)) + 1) with m in * by lia.
  rewrite Hf2, Hf1, Hn2, Hn1. by repeat split.
Qed.

End Lifecycle.

(** ** The batch driver *)

Section Batches.

Variable clock : nat -> Z.
Variable gateway : list Message -> Message -> Outcome string.
Variable timestampFromDate : Value -> Outcome Z.
Variable cfg : Config.
Variable query : Z -> Z -> gmap string Job -> list (string * Job).

Lemma process_doc_page_sizes doc w :
  page_sizes (process_doc clock gateway timestampFromDate cfg doc w).2
  = page_sizes w.
Proof.
  run. repeat (case_match; cbn; unfold ret in *; simplify_eq/=); done.
Qed.

Lemma process_page_page_sizes docs processed w :
  page_sizes
    (process_page clock gateway timestampFromDate cfg docs processed w).2
  = page_sizes w.
Proof.
  revert processed w.
  induction docs as [|doc docs IH]; intros processed w; [done|].
  cbn. unfold bind. pose proof (process_doc_page_sizes doc w) as Hd.
  destruct (process_doc _ _ _ _ doc w) as [[counted|e] w1]; cbn in *; [|done].
  by rewrite IH.
Qed.

(** One turn of the outer loop runs the query once; it asks for another
    turn only after a page that is neither empty nor short. *)
Lemma batch_body_page processed w :
  exists n,
    page_sizes
      (batch_body clock gateway timestampFromDate cfg query processed w).2
    = page_sizes w ++ [n]
    /\ (forall p w',
          batch_body clock gateway timestampFromDate cfg query processed w
          = (Ok (p, false), w') ->
          full_page cfg n).
Proof.
  unfold batch_body, fetch, bind, ret, nowTs, note_page.
  cbv beta iota zeta.
  set (page := query _ _ _). exists (List.length page).
  destruct page as [|d docs] eqn:Hpage.
  - split; [done|]. intros ? ? [=].
  - rewrite <- Hpage.
    set (w0 := push_page (List.length page) (tick w)).
    pose proof (process_page_page_sizes page processed w0) as Hp.
    destruct (process_page _ _ _ _ page processed w0) as [[n|e] w1].
    + split; [done|]. intros p w' [= <- Hlt <-]. apply Z.ltb_ge in Hlt.
      split; [by rewrite Hpage | lia].
    + split; [done|]. intros ? ? [=].
Qed.

Lemma batch_loop_pages batch processed w :
  exists ps,
    page_sizes
      (batch_loop clock gateway timestampFromDate cfg query batch processed w).2
    = page_sizes w ++ ps
    /\ (List.length ps <= Z.to_nat (MAX_BATCHES cfg - batch))%nat
    /\ (forall i n,
          ps !! i = Some n -> (S i < List.length ps)%nat -> full_page cfg n).
Proof.
  funelim (batch_loop clock gateway timestampFromDate cfg query
                      batch processed w);
    try (destruct (batch_body_page processed w) as [sz [Hps Hfull]];
         rewrite Heq in Hps; cbn in Hps).
  - exists []. rewrite app_nil_r. split; [done|]. split; [cbn; lia|].
    intros i k; by rewrite lookup_nil.
  - exists [sz]. split; [exact Hps|]. split; [cbn; lia|].
    intros [|i] ? ?; cbn; lia.
  - specialize (Hfull _ _ Heq).
    match goal with
    | IH : exists _, _ |- _ => destruct IH as [ps [H1 [H2 H3]]]
    end.
    exists (sz :: ps). split; [|split].
    + rewrite H1, Hps. by rewrite <- app_assoc.
    + cbn. lia.
    + intros [|i] m; cbn.
      * intros [= <-] _. done.
      * intros Hm Hlt. apply (H3 i m Hm). lia.
  - exists [sz]. split; [exact Hps|]. split; [cbn; lia|].
    intros [|i] ? ?; cbn; lia.
Qed.

End Batches.

(** C9: the batch driver is a total function of the configuration, the
    collaborators and the world, defined by recursion on
    [MAX_BATCHES - batch]: it always returns.  Whatever pages the store
    answers with, it runs the due query at most [MAX_BATCHES] times
    (default 10), and every page but the last one fetched is neither empty
    nor shorter than [BATCH_LIMIT]: the first empty or short page ends the
    run.  This holds for any way the store answers the query, and so for
    [main], where it answers with [due_query]. *)
Theorem batch_driver_terminates clock gateway timestampFromDate cfg query
        processed w :
  MAX_BATCHES default_config = 10
  /\ (exists result w' ps,
        batch_loop clock gateway timestampFromDate cfg query 0 processed w
        = (result, w')
        /\ page_sizes w' = page_sizes w ++ ps
        /\ (List.length ps <= Z.to_nat (MAX_BATCHES cfg))%nat
        /\ (forall i n,
              ps !! i = Some n -> (S i < List.length ps)%nat ->
              full_page cfg n))
  /\ (exists result w' ps,
        main clock gateway timestampFromDate cfg w = (result, w')
        /\ page_sizes w' = page_sizes w ++ ps
        /\ (List.length ps <= Z.to_nat (MAX_BATCHES cfg))%nat
        /\ (forall i n,
              ps !! i = Some n -> (S i < List.length ps)%nat ->
              full_page cfg n)).
Proof.
  split; [reflexivity|]. split.
  - destruct (batch_loop_pages clock gateway timestampFromDate cfg query
                               0 processed w) as (ps & Hps & Hlen & Hfull).
    destruct (batch_loop _ _ _ _ query 0 processed w) as [result w'] eqn:Hrun.
    exists result, w', ps. rewrite Z.sub_0_r in Hlen. done.
  - unfold main.
    destruct (batch_loop_pages clock gateway timestampFromDate cfg due_query
                               0 0 w) as (ps & Hps & Hlen & Hfull).
    destruct (batch_loop _ _ _ _ due_query 0 0 w) as [result w'] eqn:Hrun.
    exists result, w', ps. rewrite Z.sub_0_r in Hlen. done.
Qed.

(** ** Closed instances *)

(** C1 fails on the code: the claim transaction writes nothing when the
    job is no longer queued, but [main] does not look at what the
    transaction did.  Two overlapping invocations that both fetched the
    job dispatch it twice: the second one skips the claim (one single
    [processing] write), yet it sends the message, writes [sent] and
    appends a history record again. *)
Theorem stale_claim_is_dispatched :
  let w0 := world_of {[ "a" := job_news ]} in
  let w2 := overlapping_runs w0 in
  due_query 1000 50 (scheduled_notifications w0) = [("a", job_news)]
  /\ map transition (updates w2)
     = [("a", Some processing, None); ("a", Some sent, None);
        ("a", Some sent, None)]
  /\ List.length (gateway_calls w2) = 2%nat
  /\ List.length (notifications w2) = 2%nat.
Proof. vm_compute. done. Qed.

(** C5, as stated, fails on a job that carries both a topic and a token:
    the message handed to the gateway has both addressing fields set. *)
Lemma both_targets_both_set :
  has_target job_both
  /\ exists m,
      gateway_calls
        (process_doc sample_clock gateway_accepts epoch_conversion
                     default_config ("a", job_both)
                     (world_of {[ "a" := job_both ]})).2 = [m]
      /\ m_topic m = Some "news"
      /\ m_token m = Some "device-1"
      /\ ~ exactly_one_target m.
Proof.
  split; [left; by eexists|].
  eexists. split; [vm_compute; reflexivity|]. cbn.
  split; [done|]. split; [done|].
  intros [[_ [=]]|[[=] _]].
Qed.

(** C2 fails on the code, on the example of the specification: the job
    [{title: X, body: Y, topic: news, attemptCount: 0}], the defaults
    ([MAX_ATTEMPTS] 5) and a gateway that is always unavailable.  Four
    runs of [main] take the job through four rounds of [processing] then
    [queued], the attempt count going up by one and the result being the
    text of the error in each.  The fifth run writes [processing] then
    [error] with attempt count 5, and then the dead-letter [add] throws on
    the [undefined] token of the payload: no dead-letter record is
    appended, and [main] rejects. *)
Theorem exhausted_retries_lose_dead_letter :
  let w0 := world_of {[ "a" := job_news ]} in
  let w4 :=
    run_unavailable (run_unavailable (run_unavailable (run_unavailable w0))) in
  let r5 :=
    main sample_clock gateway_unavailable epoch_conversion default_config w4 in
  isRetryableError err_unavailable = true
  /\ map transition (updates w4) = retry_cycles "a" 0 4
  /\ (status <$> scheduled_notifications w4 !! "a") = Some queued
  /\ (attemptCount <$> scheduled_notifications w4 !! "a") = Some (Some 4)
  /\ (lastResult <$> scheduled_notifications w4 !! "a")
     = Some (Some "The server is unavailable")
  /\ failed_notifications w4 = []
  /\ r5.1 = Throw (invalid_document "token")
  /\ map transition (updates r5.2)
     = retry_cycles "a" 0 4
       ++ [("a", Some processing, None); ("a", Some error, Some 5)]
  /\ (status <$> scheduled_notifications r5.2 !! "a") = Some error
  /\ (attemptCount <$> scheduled_notifications r5.2 !! "a") = Some (Some 5)
  /\ (lastResult <$> scheduled_notifications r5.2 !! "a")
     = Some (Some "The server is unavailable")
  /\ List.length (gateway_calls r5.2) = 5%nat
  /\ failed_notifications r5.2 = []
  /\ notifications r5.2 = [].
Proof. vm_compute. done. Qed.

(** C3 fails on the code: the sample job, the gateway rejecting the token
    with an error that is not retryable.  The run writes [processing] then
    [error] with attempt count 1 and the text of the error as result, with
    no return to [queued]; then the dead-letter [add] throws on the
    [undefined] token of the payload: no dead-letter record is appended,
    and [main] rejects. *)
Theorem fatal_failure_loses_dead_letter :
  let w0 := world_of {[ "a" := job_news ]} in
  let r :=
    main sample_clock gateway_rejects epoch_conversion default_config w0 in
  isRetryableError err_invalid_argument = false
  /\ undefined_payload_field (fields_of job_news None) = Some "token"
  /\ r.1 = Throw (invalid_document "token")
  /\ map transition (updates r.2)
     = [("a", Some processing, None); ("a", Some error, Some 1)]
  /\ (status <$> scheduled_notifications r.2 !! "a") = Some error
  /\ (attemptCount <$> scheduled_notifications r.2 !! "a") = Some (Some 1)
  /\ (lastResult <$> scheduled_notifications r.2 !! "a")
     = Some (Some "The registration token is not valid")
  /\ List.length (gateway_calls r.2) = 1%nat
  /\ failed_notifications r.2 = []
  /\ notifications r.2 = [].
Proof. vm_compute. done. Qed.

(** The same failure on a job that carries every optional field: nothing
    of the payload is [undefined], and the run appends one dead-letter
    record with the job id, the sanitised fields of the job, the text of
    the error and the attempt count. *)
Lemma full_payload_is_dead_lettered :
  let w0 := world_of {[ "a" := job_full ]} in
  let r :=
    main sample_clock gateway_rejects epoch_conversion default_config w0 in
  undefined_payload_field (fields_of job_full (Some 0)) = None
  /\ r.1 = Ok 1
  /\ (status <$> scheduled_notifications r.2 !! "a") = Some error
  /\ exists dl,
      failed_notifications r.2 = [dl]
      /\ dl_refId dl = "a"
      /\ dl_payload dl
         = {| f_title := "X"; f_body := "Y"; f_topic := Some "news";
              f_token := Some "device-1";
              f_imageUrl := Some "https://example.org/i.png";
              f_action := Some "open";
              f_additionalData := Some (VObj [("campaign", VStr "c1")]);
              f_debug := true; f_expiry := Some 0 |}
      /\ dl_error dl = "The registration token is not valid"
      /\ dl_attempts dl = 1
      /\ dl_from dl = "github-actions".
Proof.
  cbv zeta. split; [reflexivity|]. split; [vm_compute; reflexivity|].
  split; [vm_compute; reflexivity|].
  eexists. split; [vm_compute; reflexivity|]. by repeat split.
Qed.

(** C4, as stated, fails on a job with neither a topic nor a token whose
    expiry does not convert: line 116 throws before the target check of
    line 118, outside the [try].  The job, claimed, stays in [processing]
    without a result, and [main] rejects. *)
Lemma untargeted_job_left_processing :
  let w0 := world_of {[ "a" := job_untargeted_expiring ]} in
  let r :=
    main sample_clock gateway_accepts failing_conversion default_config w0 in
  toSafeString (topic job_untargeted_expiring) = None
  /\ toSafeString (token job_untargeted_expiring) = None
  /\ r.1 = Throw err_bad_date
  /\ map transition (updates r.2) = [("a", Some processing, None)]
  /\ (status <$> scheduled_notifications r.2 !! "a") = Some processing
  /\ (lastResult <$> scheduled_notifications r.2 !! "a") = Some None.
Proof. vm_compute. done. Qed.

(** C10, as stated, fails on a job whose topic is the empty string and
    whose token is [null] when its expiry does not convert: the job is not
    routed to [error] with [missing-target] but stays in [processing]. *)
Lemma blank_job_left_processing :
  let w0 := world_of {[ "a" := job_blank_expiring ]} in
  let r :=
    main sample_clock gateway_accepts failing_conversion default_config w0 in
  absent_or_empty (topic job_blank_expiring)
  /\ absent_or_empty (token job_blank_expiring)
  /\ r.1 = Throw err_bad_date
  /\ map transition (updates r.2) = [("a", Some processing, None)]
  /\ (status <$> scheduled_notifications r.2 !! "a") = Some processing
  /\ (lastResult <$> scheduled_notifications r.2 !! "a") = Some None.
Proof.
  cbv zeta. split; [right; right; reflexivity|].
  split; [right; left; reflexivity|]. vm_compute. done.
Qed.

(** C6, as stated, fails in dry-run mode on a claimed job with a target
    whose expiry does not convert: the job does not reach [sent], no
    history record is written, and [main] rejects. *)
Lemma dry_run_job_left_processing :
  let w0 := world_of {[ "a" := job_expiring ]} in
  let r :=
    main sample_clock gateway_accepts failing_conversion dry_config w0 in
  DRY_RUN dry_config = true
  /\ toSafeString (topic job_expiring) = Some "news"
  /\ r.1 = Throw err_bad_date
  /\ map transition (updates r.2) = [("a", Some processing, None)]
  /\ (status <$> scheduled_notifications r.2 !! "a") = Some processing
  /\ (lastResult <$> scheduled_notifications r.2 !! "a") = Some None
  /\ notifications r.2 = [].
Proof. vm_compute. done. Qed.

(** ** The claims at sample inputs *)

(** C4 on a job with neither field. *)
Lemma missing_target_rejected_witness :
  exists w' j',
    process_doc sample_clock gateway_accepts epoch_conversion default_config
                ("a", job_untargeted) (world_of {[ "a" := job_untargeted ]})
    = (Ok false, w')
    /\ scheduled_notifications w' !! "a" = Some j'
    /\ status j' = error
    /\ lastResult j' = Some "missing-target"
    /\ gateway_calls w' = []
    /\ notifications w' = []
    /\ failed_notifications w' = [].
Proof.
  apply (missing_target_rejected sample_clock gateway_accepts
           epoch_conversion default_config "a" job_untargeted job_untargeted
           (world_of {[ "a" := job_untargeted ]}) None);
    reflexivity.
Defined.

(** C10 on a job whose topic is the empty string and whose token is
    [null]. *)
Lemma blank_targets_are_missing_witness :
  absent_or_empty (topic job_blank)
  /\ absent_or_empty (token job_blank)
  /\ exists w' j',
      process_doc sample_clock gateway_accepts epoch_conversion default_config
                  ("a", job_blank) (world_of {[ "a" := job_blank ]})
      = (Ok false, w')
      /\ scheduled_notifications w' !! "a" = Some j'
      /\ status j' = error
      /\ lastResult j' = Some "missing-target"
      /\ gateway_calls w' = [].
Proof.
  assert (absent_or_empty (topic job_blank)) as Htopic
    by (right; right; reflexivity).
  assert (absent_or_empty (token job_blank)) as Htoken
    by (right; left; reflexivity).
  split; [exact Htopic|]. split; [exact Htoken|].
  apply (blank_targets_are_missing sample_clock gateway_accepts
           epoch_conversion default_config "a" job_blank job_blank
           (world_of {[ "a" := job_blank ]}) None);
    [reflexivity | reflexivity | exact Htopic | exact Htoken].
Defined.

(** C5 (as the code has it) on the job with both a topic and a token. *)
Lemma message_mirrors_targets_witness :
  let m := build_message (fields_of job_both None) in
  gateway_calls
    (process_doc sample_clock gateway_accepts epoch_conversion default_config
                 ("a", job_both) (world_of {[ "a" := job_both ]})).2
  = [m]
  /\ m_topic m = Some "news"
  /\ m_token m = Some "device-1".
Proof.
  destruct (message_mirrors_targets sample_clock gateway_accepts
              epoch_conversion default_config "a" job_both
              (world_of {[ "a" := job_both ]}) None)
    as (Hcalls & Htopic & Htoken & _);
    [reflexivity | reflexivity | left; by eexists |].
  split; [exact Hcalls|]. split; [exact Htopic | exact Htoken].
Defined.


(** C6 on the sample job, in dry-run mode. *)
Lemma dry_run_skips_gateway_witness :
  exists w' j' rec,
    process_doc sample_clock gateway_accepts epoch_conversion dry_config
                ("a", job_news) (world_of {[ "a" := job_news ]})
    = (Ok true, w')
    /\ gateway_calls w' = []
    /\ scheduled_notifications w' !! "a" = Some j'
    /\ status j' = sent
    /\ lastResult j' = Some "dry-run"
    /\ notifications w' = [rec].
Proof.
  destruct (dry_run_skips_gateway sample_clock gateway_accepts
              epoch_conversion dry_config "a" job_news job_news
              (world_of {[ "a" := job_news ]}) None)
    as (w' & j' & rec & Hrun & Hg & Hj & Hs & Hl & Hn & _);
    [reflexivity | reflexivity | reflexivity | left; by eexists |].
  exists w', j', rec. repeat split; assumption.
Defined.

(** * Further properties of the code *)

(** ** [toSafeString] *)

Lemma pretty_N_go_nonempty x s : s <> "" -> pretty_N_go x s <> "".
Proof.
  revert s. induction (N.lt_wf_0 x) as [x _ IH]; intros s Hs.
  destruct (decide (x = 0)%N) as [->|Hx]; [by rewrite pretty_N_go_0|].
  rewrite pretty_N_go_step by lia. apply IH; [apply N.div_lt; lia|done].
Qed.

Lemma pretty_Z_nonempty (x : Z) : pretty x <> "".
Proof.
  assert (forall n : N, pretty n <> "") as HN.
  { intros n. unfold pretty, pretty_N. case_decide; [done|].
    rewrite pretty_N_go_step by lia. by apply pretty_N_go_nonempty. }
  destruct x; [done| |done]. apply HN.
Qed.

Lemma toSafeString_None v :
  toSafeString v = None <-> js_nullish v = true \/ js_String v = "".
Proof.
  unfold toSafeString. destruct (js_nullish v).
  - split; [by left|done].
  - destruct (js_String v); simpl.
    + split; [by right|done].
    + split; [done|]. intros [H|H]; discriminate H.
Qed.

Lemma append_comma_nonempty a b : a +:+ "," +:+ b <> "".
Proof. by destruct a. Qed.

(** X1: [toSafeString] returns [undefined] exactly on [undefined], [null],
    the empty string, the empty array, and an array whose single item is
    itself such a value.  Every number and boolean (also [0] and [false]),
    every object, every non-empty string and every array of two or more
    items is kept as a non-empty string. *)
Theorem toSafeString_None_iff : forall v, toSafeString v = None <-> blank v.
Proof.
  fix IH 1. intros v. rewrite toSafeString_None.
  destruct v as [| |b|n|s|items|fields]; simpl.
  - split; [constructor|auto].
  - split; [constructor|auto].
  - split; [|inversion 1]. intros [[=]|H]. by destruct b.
  - split; [|inversion 1]. intros [[=]|H]. by apply pretty_Z_nonempty in H.
  - split; [intros [[=]| ->]; constructor|]. inversion 1; auto.
  - destruct items as [|x [|y rest]].
    + split; [constructor|auto].
    + specialize (IH x). rewrite toSafeString_None in IH. split.
      * intros [[=]|H]. constructor. apply IH.
        destruct (js_nullish x); auto.
      * inversion 1 as [| | | |x' Hx]; subst. apply IH in Hx. right.
        destruct (js_nullish x); [done|]. by destruct Hx.
    + split; [|inversion 1]. intros [[=]|H].
      by apply append_comma_nonempty in H.
  - split; [|inversion 1]. intros [[=]|[=]].
Qed.

(** ** The dry-run switch *)

Lemma ends_with_spec (p s : string) :
  ends_with p s = true <-> exists pre, s = pre +:+ p.
Proof.
  induction s as [|b s IH].
  - simpl. rewrite orb_false_r, String.eqb_eq. split.
    + intros ->. by exists "".
    + intros [pre H]. destruct pre; [done|discriminate].
  - cbn [ends_with]. rewrite orb_true_iff, IH, String.eqb_eq. split.
    + intros [->|[pre ->]]; [by exists ""|by exists (String b pre)].
    + intros [[|c pre] H]; [by left|]. right. simpl in H.
      injection H as _ ->. by exists pre.
Qed.

(** X2: dry-run mode is on exactly when [DRY_RUN] is set to a string that
    starts with [1] or that ends, whatever the case of the letters, with
    [true]: the two anchors of [/^1|true$/i] apply to one alternative each.
    An unset or empty variable leaves it off. *)
Theorem dry_run_flag_iff (env : option string) :
  dry_run_flag env = true <->
  exists s,
    env = Some s
    /\ ((exists rest, s = "1" +:+ rest)
        \/ (exists pre, lower s = pre +:+ "true")).
Proof.
  unfold dry_run_flag. rewrite orb_true_iff, starts_with_spec, ends_with_spec.
  destruct env as [s|]; simpl.
  - split; [intros H; by exists s|]. by intros (? & [= <-] & H).
  - split; [|by intros (? & [=] & _)].
    intros [[rest [=]]|[pre H]]. by destruct pre.
Qed.

(** ** The data block of the message *)

Lemma object_of_lookup_notin (kvs : list (string * Value))
      (m0 : gmap string Value) k :
  k ∉ kvs.*1 ->
  foldl (fun m kv => <[kv.1 := kv.2]> m) m0 kvs !! k = m0 !! k.
Proof.
  revert m0. induction kvs as [|[k' v'] kvs IH]; intros m0 Hk; [done|].
  cbn in *. apply not_elem_of_cons in Hk as [Hne Hk].
  rewrite IH by done. by rewrite lookup_insert_ne.
Qed.

Lemma object_of_lookup_in (kvs : list (string * Value))
      (m0 : gmap string Value) k v :
  NoDup kvs.*1 -> (k, v) ∈ kvs ->
  foldl (fun m kv => <[kv.1 := kv.2]> m) m0 kvs !! k = Some v.
Proof.
  revert m0. induction kvs as [|[k' v'] kvs IH]; intros m0 Hnd Hin.
  { by apply elem_of_nil in Hin. }
  cbn in *. apply NoDup_cons in Hnd as [Hk' Hnd].
  apply elem_of_cons in Hin as [[= <- <-]|Hin].
  - rewrite object_of_lookup_notin by done. apply lookup_insert_eq.
  - by apply IH.
Qed.

(** X3: in the data block the job's [additionalData] is spread after the
    six built-in entries, so (its keys being distinct) every entry of
    [additionalData] is in the block with its own value, also under a
    built-in key such as [title] or [screen], and every key it does not
    use keeps the built-in value. *)
Theorem extra_data_shadows (f : Fields) :
  NoDup (extra_data f).*1 ->
  (forall k v, (k, v) ∈ extra_data f ->
               m_data (build_message f) !! k = Some v)
  /\ (forall k, k ∉ (extra_data f).*1 ->
                m_data (build_message f) !! k
                = object_of (builtin_data f) !! k).
Proof.
  intros Hnd. unfold build_message, object_of, extra_data in *. cbn [m_data].
  split.
  - intros k v Hin. rewrite foldl_app. by apply object_of_lookup_in.
  - intros k Hk. rewrite foldl_app. by apply object_of_lookup_notin.
Qed.

(** ** The due query *)

Lemma due_before_spec a b :
  due_before a b <->
  scheduleTime a.2 < scheduleTime b.2
  \/ (scheduleTime a.2 = scheduleTime b.2 /\ String.le a.1 b.1).
Proof.
  unfold due_before, due_leb, String.le.
  rewrite orb_True, andb_True, !Is_true_true, Z.ltb_lt, Z.eqb_eq.
  by rewrite <- Is_true_true.
Qed.

Lemma due_before_total : Total due_before.
Proof.
  intros a b. rewrite !due_before_spec.
  destruct (Z.lt_trichotomy (scheduleTime a.2) (scheduleTime b.2))
    as [?|[?|?]]; [by left; left| |by right; left].
  destruct (total String.le a.1 b.1); [left|right]; right; done.
Qed.

Lemma due_before_trans : Transitive due_before.
Proof.
  intros a b c. rewrite !due_before_spec.
  intros [?|[? ?]] [?|[? ?]]; [left; lia..|].
  right. split; [lia|]. by etrans.
Qed.

(** X4: the page the due query returns holds only documents of the
    collection that are queued and due, each at most once, at most [limit]
    of them, in ascending order of [scheduleTime]; and a page shorter than
    the limit holds every queued, due document, which is what the [break]
    of line 204 relies on. *)
Theorem due_query_page now limit (jobs : gmap string Job) :
  let page := due_query now limit jobs in
  (forall id j, (id, j) ∈ page ->
     jobs !! id = Some j /\ status j = queued /\ scheduleTime j <= now)
  /\ (List.length page <= Z.to_nat limit)%nat
  /\ NoDup page.*1
  /\ (forall i k a b,
        (i < k)%nat -> page !! i = Some a -> page !! k = Some b ->
        scheduleTime a.2 <= scheduleTime b.2)
  /\ ((List.length page < Z.to_nat limit)%nat ->
      forall id j,
        jobs !! id = Some j -> status j = queued -> scheduleTime j <= now ->
        (id, j) ∈ page).
Proof.
  intros page. subst page. unfold due_query.
  pose proof due_before_total as Htotal.
  pose proof due_before_trans as Htrans.
  set (due := filter (is_due now) (map_to_list jobs)).
  set (sorted := merge_sort due_before due).
  assert (sorted ≡ₚ due) as Hperm by apply merge_sort_Permutation.
  assert (NoDup due.*1) as Hnd.
  { subst due. eapply sublist_NoDup; [apply (NoDup_fst_map_to_list jobs)|].
    apply fmap_sublist, sublist_filter. }
  split; [|split; [|split; [|split]]].
  - intros id j Hin. apply subseteq_take in Hin. rewrite Hperm in Hin.
    apply list_elem_of_filter in Hin as [[Hq Hdue] Hin].
    by apply elem_of_map_to_list in Hin.
  - rewrite length_take. lia.
  - eapply sublist_NoDup; [|apply fmap_sublist, sublist_take].
    by rewrite Hperm.
  - intros i k a b Hik Ha Hb.
    assert (StronglySorted due_before (take (Z.to_nat limit) sorted)) as Hs.
    { apply (StronglySorted_app_1_l _ _ (drop (Z.to_nat limit) sorted)).
      rewrite take_drop. by apply StronglySorted_merge_sort. }
    assert (due_before a b) as Hab; [|apply due_before_spec in Hab; lia].
    revert Hs i k a b Hik Ha Hb. generalize (take (Z.to_nat limit) sorted).
    induction 1 as [|x l Hl IH Hx]; intros i k a b Hik Ha Hb; [done|].
    destruct k as [|k]; [lia|]. cbn in Hb.
    destruct i as [|i]; cbn in Ha.
    + injection Ha as <-. rewrite Forall_forall in Hx. apply Hx.
      by eapply list_elem_of_lookup_2.
    + eapply (IH i k); [lia|done..].
  - intros Hshort id j Hj Hq Hdue.
    rewrite length_take in Hshort.
    rewrite take_ge by lia. rewrite Hperm.
    apply list_elem_of_filter. split; [done|]. by apply elem_of_map_to_list.
Qed.


(** ** What a run does to the world *)

Lemma insert_apply (m : gmap string Job) id j f :
  m !! id = Some j -> <[id := f j]> m = alter f id m.
Proof.
  intros Hj. apply map_eq. intros k. destruct (decide (k = id)) as [->|Hne].
  - by rewrite lookup_insert_eq, lookup_alter_eq, Hj.
  - by rewrite lookup_insert_ne, lookup_alter_ne.
Qed.

Lemma replay_one (m : gmap string Job) id j p :
  m !! id = Some j -> <[id := apply_patch p j]> m = replay [(id, p)] m.
Proof. intros. cbn. by apply insert_apply. Qed.

Lemma replay_two (m : gmap string Job) id j p1 p2 :
  m !! id = Some j ->
  <[id := apply_patch p2 (apply_patch p1 j)]> (<[id := apply_patch p1 j]> m)
  = replay [(id, p1); (id, p2)] m.
Proof.
  intros Hj. cbn. rewrite <- (insert_apply m id j) by done.
  rewrite <- (insert_apply _ id (apply_patch p1 j)); [done|].
  by rewrite lookup_insert_eq.
Qed.

Lemma replay_app us1 us2 (m : gmap string Job) :
  replay (us1 ++ us2) m = replay us2 (replay us1 m).
Proof. apply foldl_app. Qed.

(** Replaying updates maps each document through patches, which leave its
    content alone; a document no update names is left as it is. *)
Lemma replay_lookup us (m : gmap string Job) id :
  exists f : Job -> Job,
    (forall j, content (f j) = content j)
    /\ (Forall (fun u => u.1 <> id) us -> forall j, f j = j)
    /\ replay us m !! id = f <$> m !! id.
Proof.
  revert m. induction us as [|[k p] us IH]; intros m.
  - exists (fun j => j). split; [done|]. split; [done|].
    cbn. by destruct (m !! id).
  - destruct (IH (alter (apply_patch p) k m)) as (f & Hc & Hid & Hf).
    cbn [replay foldl fst snd] in *. fold (replay us) in *.
    destruct (decide (k = id)) as [->|Hne].
    + exists (fun j => f (apply_patch p j)). split; [|split].
      * intros j. by rewrite Hc.
      * intros Hall. apply Forall_cons in Hall as [Hk _]. done.
      * unfold replay in *. rewrite Hf, lookup_alter_eq.
        by destruct (m !! id).
    + exists f. split; [done|]. split.
      * intros Hall. apply Forall_cons in Hall as [_ Hall]. auto.
      * unfold replay in *. by rewrite Hf, lookup_alter_ne.
Qed.

Lemma replay_other us (m : gmap string Job) id :
  Forall (fun u => u.1 <> id) us -> replay us m !! id = m !! id.
Proof.
  intros Hall. destruct (replay_lookup us m id) as (f & _ & Hid & ->).
  destruct (m !! id) as [j|]; [|done]. cbn. by rewrite Hid.
Qed.

Lemma replay_None us (m : gmap string Job) id :
  replay us m !! id = None <-> m !! id = None.
Proof.
  destruct (replay_lookup us m id) as (f & _ & _ & ->).
  by destruct (m !! id).
Qed.

Lemma replay_content us (m : gmap string Job) id j j' :
  m !! id = Some j -> replay us m !! id = Some j' -> content j' = content j.
Proof.
  destruct (replay_lookup us m id) as (f & Hc & _ & ->).
  intros -> [= <-]. apply Hc.
Qed.

Lemma evolves_refl w : evolves w w no_delta.
Proof. unfold evolves. cbn. by rewrite !app_nil_r. Qed.

Lemma evolves_trans w1 w2 w3 d1 d2 :
  evolves w1 w2 d1 -> evolves w2 w3 d2 -> evolves w1 w3 (delta_app d1 d2).
Proof.
  intros (Hu1 & Hj1 & Hn1 & Hf1 & Hc1 & Ht1) (Hu2 & Hj2 & Hn2 & Hf2 & Hc2 & Ht2).
  unfold evolves, delta_app.
  cbn [d_updates d_notifications d_failed d_calls].
  rewrite Hu2, Hu1, Hj2, Hj1, Hn2, Hn1, Hf2, Hf1, Hc2, Hc1, replay_app.
  rewrite <- !app_assoc. repeat split; [done..|lia].
Qed.

(** Reading the clock and noting a page size change neither the
    collections nor the traces of updates and gateway calls. *)
Lemma evolves_after_fetch n w w' d :
  evolves (push_page n (tick w)) w' d -> evolves w w' d.
Proof.
  intros (Hu & Hj & Hn & Hf & Hc & Ht). unfold evolves. cbn in *.
  repeat split; [done..|lia].
Qed.

Lemma lawful_nil cfg : lawful cfg no_delta.
Proof. unfold lawful. cbn. repeat split; constructor. Qed.

Lemma lawful_app cfg d1 d2 :
  lawful cfg d1 -> lawful cfg d2 -> lawful cfg (delta_app d1 d2).
Proof.
  intros (Hq1 & Hr1 & Hn1 & Hf1 & Hd1) (Hq2 & Hr2 & Hn2 & Hf2 & Hd2).
  unfold lawful. cbn.
  split; [by apply Forall_app|]. split; [by apply Forall_app|].
  split; [by rewrite filter_app, !length_app, Hn1, Hn2|].
  split; [rewrite filter_app, !length_app; lia|].
  intros Hdry. destruct (Hd1 Hdry) as (-> & -> & ?).
  destruct (Hd2 Hdry) as (-> & -> & ?). repeat split. by apply Forall_app.
Qed.

Ltac grow := first [ by rewrite <- ?app_assoc | symmetry; apply app_nil_r ].

Ltac settle :=
  repeat match goal with
         | H : <[_ := _]> _ !! _ = Some _ |- _ =>
             rewrite lookup_insert_eq in H; simplify_eq/=
         | H : <[_ := _]> _ !! _ = None |- _ =>
             rewrite lookup_insert_eq in H; simplify_eq/=
         end.

Ltac leaf :=
  eexists (mkDelta _ _ _ _); split;
  [ unfold evolves; cbn;
    split; [ grow | ];
    split; [ first [ reflexivity | by apply replay_one
                   | by apply replay_two ] | ];
    split; [ grow | ];
    split; [ grow | ];
    split; [ grow | lia ]
  | ].

Ltac law :=
  split; [ repeat (constructor;
                   [unfold requeue_bounded; cbn; try done; by eauto|]);
           constructor | ];
  split; [ repeat (constructor; [unfold records_result; cbn; by eauto|]);
           constructor | ];
  split; [ reflexivity | ];
  split; [ first [ apply Nat.eq_le_incl; reflexivity | apply Nat.le_0_l ] | ];
  intros Hdry; first [ congruence | repeat split; repeat constructor; done ].

Ltac step :=
  split; [ repeat constructor | ];
  split; [ cbn; lia | ];
  split; [ cbn; lia | ];
  intros b Hb;
  first
    [ discriminate Hb
    | injection Hb as <-;
      split; [ | cbn; first [ done | congruence ] ];
      match goal with
      | H : str_falsy _ && str_falsy _ = _ |- context [has_target ?data] =>
          let Hl := fresh in
          pose proof (lacks_target_test data None) as Hl; cbn in Hl;
          rewrite H in Hl;
          destruct (decide (has_target data)); intuition congruence
      end ].

Section Run.

Variable clock : nat -> Z.
Variable gateway : list Message -> Message -> Outcome string.
Variable timestampFromDate : Value -> Outcome Z.
Variable cfg : Config.

(** One turn of the inner loop, whatever its outcome. *)
Lemma process_doc_evolves doc w :
  let r := process_doc clock gateway timestampFromDate cfg doc w in
  exists d, evolves w r.2 d /\ lawful cfg d /\ doc_step cfg doc r.1 d.
Proof.
  destruct doc as [id data]. run.
  repeat (case_match; cbn; unfold ret in *; simplify_eq/=).
  all: settle.
  all: leaf.
  all: split;
    [ unfold lawful; cbn [d_updates d_notifications d_failed d_calls]
    | unfold doc_step;
      cbn [d_updates d_notifications d_failed d_calls fst snd] ].
  all: repeat match goal with
         | H : (_ <? _) && _ = true |- _ =>
             apply andb_true_iff in H as [? ?]
         | H : (_ <? _) = true |- _ => apply Z.ltb_lt in H
         end.
  all: first [ law | step ].
Qed.

Lemma process_page_evolves docs p w :
  let r := process_page clock gateway timestampFromDate cfg docs p w in
  exists d, evolves w r.2 d /\ lawful cfg d /\ page_step cfg docs p r.1 d.
Proof.
  revert p w. induction docs as [|doc docs IH]; intros p w.
  - exists no_delta. split; [apply evolves_refl|]. split; [apply lawful_nil|].
    unfold page_step. cbn. split; [constructor|]. split; [lia|].
    intros n [= <-]. split; lia.
  - cbn [process_page]. unfold bind.
    destruct (process_doc_evolves doc w) as (d1 & He1 & Hl1 & Hs1).
    destruct (process_doc _ _ _ _ doc w) as [[counted|e] w1]; cbn [fst snd] in *.
    + destruct (IH (if counted then p + 1 else p) w1) as (d2 & He2 & Hl2 & Hs2).
      destruct (process_page _ _ _ _ docs _ w1) as [r2 w2]; cbn [fst snd] in *.
      exists (delta_app d1 d2). split; [by eapply evolves_trans|].
      split; [by apply lawful_app|].
      destruct Hs1 as (Hid1 & Hc1 & _ & Hr1).
      destruct Hs2 as (Hid2 & Hc2 & Hr2).
      destruct (Hr1 counted eq_refl) as [Hcounted Hlive1].
      unfold page_step, delta_app.
      cbn [d_updates d_calls]. rewrite fmap_cons. split; [|split].
      * apply Forall_app. split.
        -- eapply Forall_impl; [exact Hid1|]. intros u ->.
           apply elem_of_cons. by left.
        -- eapply Forall_impl; [exact Hid2|]. intros u Hu.
           apply elem_of_cons. by right.
      * rewrite length_app. cbn [List.length]. lia.
      * intros n ->. destruct (Hr2 n eq_refl) as [-> Hlive2].
        unfold targeted in *. rewrite filter_cons.
        destruct (decide (has_target doc.2)) as [Ht|Ht].
        -- apply Hcounted in Ht as ->. cbn [List.length]. split; [lia|].
           intros Hlive. rewrite length_app, (Hlive1 Hlive).
           specialize (Hlive2 Hlive). lia.
        -- destruct counted; [by destruct Ht; apply Hcounted|]. split; [lia|].
           intros Hlive. rewrite length_app, (Hlive1 Hlive).
           specialize (Hlive2 Hlive). lia.
    + exists d1. split; [done|]. split; [done|].
      destruct Hs1 as (Hid1 & Hc1 & _ & _).
      unfold page_step. rewrite fmap_cons. cbn [List.length].
      split; [|split; [lia|by intros ? [=]]].
      eapply Forall_impl; [exact Hid1|]. intros u ->.
      apply elem_of_cons. by left.
Qed.

End Run.


Section Batching.

Variable clock : nat -> Z.
Variable gateway : list Message -> Message -> Outcome string.
Variable timestampFromDate : Value -> Outcome Z.
Variable cfg : Config.
Variable query : Z -> Z -> gmap string Job -> list (string * Job).

(** One turn of the outer loop: the page is the store's answer at the
    instant read, and only documents of that page are updated. *)
Lemma batch_body_evolves p w :
  let r := batch_body clock gateway timestampFromDate cfg query p w in
  let page :=
    query (now_at clock w) (BATCH_LIMIT cfg) (scheduled_notifications w) in
  exists d,
    evolves w r.2 d /\ lawful cfg d
    /\ Forall (fun u => u.1 ∈ page.*1) (d_updates d)
    /\ (List.length (d_calls d) <= List.length page)%nat
    /\ (forall n brk, r.1 = Ok (n, brk) ->
          p <= n <= p + Z.of_nat (List.length page)
          /\ (DRY_RUN cfg = false ->
              Z.of_nat (List.length (d_calls d)) = n - p)).
Proof.
  unfold batch_body, fetch, bind, ret, nowTs, note_page, now_at.
  cbv beta iota zeta. cbn [scheduled_notifications tick clock_reads].
  set (page := query _ _ _).
  destruct page as [|doc docs] eqn:Hpage.
  - exists no_delta. cbn [fst snd]. split.
    { apply (evolves_after_fetch 0). apply evolves_refl. }
    split; [apply lawful_nil|]. cbn. split; [constructor|]. split; [lia|].
    intros n brk [= <- _]. split; lia.
  - rewrite <- Hpage in *.
    set (w0 := push_page (List.length page) (tick w)).
    destruct (process_page_evolves clock gateway timestampFromDate cfg
                page p w0) as (d & He & Hl & Hid & Hc & Hr).
    destruct (process_page _ _ _ _ page p w0) as [[n|e] w1]; cbn [fst snd] in *.
    + exists d. split; [by eapply evolves_after_fetch|]. split; [done|].
      split; [done|]. split; [lia|].
      intros n' brk [= <- _]. destruct (Hr n eq_refl) as [-> Hlive].
      split; [|done].
      pose proof (length_filter (fun d => has_target d.2) page) as Hf.
      unfold targeted. lia.
    + exists d. split; [by eapply evolves_after_fetch|]. split; [done|].
      split; [done|]. split; [lia|]. by intros ? ? [=].
Qed.

Section Bounded.

Variable L : nat.

Hypothesis page_bound :
  forall now jobs, (List.length (query now (BATCH_LIMIT cfg) jobs) <= L)%nat.

Lemma batch_loop_evolves batch p w :
  let r := batch_loop clock gateway timestampFromDate cfg query batch p w in
  let turns := Z.to_nat (MAX_BATCHES cfg - batch) in
  exists d,
    evolves w r.2 d /\ lawful cfg d
    /\ (List.length (d_calls d) <= turns * L)%nat
    /\ (forall n, r.1 = Ok n ->
          p <= n <= p + Z.of_nat (turns * L)
          /\ (DRY_RUN cfg = false ->
              Z.of_nat (List.length (d_calls d)) = n - p)).
Proof.
  funelim (batch_loop clock gateway timestampFromDate cfg query batch p w);
    try (destruct (batch_body_evolves processed w)
           as (d1 & He1 & Hl1 & _ & Hc1 & Hr1);
         pose proof (page_bound (now_at clock w) (scheduled_notifications w))
           as Hlen;
         rewrite Heq in He1, Hr1; cbn [fst snd] in He1, Hr1).
  - exists no_delta. cbn [fst snd]. split; [apply evolves_refl|].
    split; [apply lawful_nil|]. cbn. split; [lia|].
    intros n' [= <-]. split; lia.
  - exists d1. cbn [fst snd]. split; [done|]. split; [done|].
    assert (1 <= Z.to_nat (MAX_BATCHES cfg - batch))%nat by lia.
    split; [nia|]. intros n' [= <-].
    destruct (Hr1 n true eq_refl) as [Hn Hlive]. split; [nia|done].
  - match goal with
    | IH : exists _ : Delta, _ |- _ =>
        destruct IH as (d2 & He2 & Hl2 & Hc2 & Hr2)
    end.
    destruct (Hr1 n false eq_refl) as [Hn Hlive1].
    exists (delta_app d1 d2). split; [by eapply evolves_trans|].
    split; [by apply lawful_app|].
    assert (Z.to_nat (MAX_BATCHES cfg - batch)
            = S (Z.to_nat (MAX_BATCHES cfg - (batch + 1)))) as -> by lia.
    cbn [delta_app d_calls]. rewrite length_app. split; [lia|].
    intros n' Hn'. destruct (Hr2 n' Hn') as [Hn2 Hlive2].
    split; [lia|]. intros Hlive.
    specialize (Hlive1 Hlive). specialize (Hlive2 Hlive). lia.
  - exists d1. cbn [fst snd]. split; [done|]. split; [done|].
    assert (1 <= Z.to_nat (MAX_BATCHES cfg - batch))%nat by lia.
    split; [nia|]. by intros ? [=].
Qed.

End Bounded.

End Batching.


(** ** One document, one page *)

Section Turns.

Variable clock : nat -> Z.
Variable gateway : list Message -> Message -> Outcome string.
Variable timestampFromDate : Value -> Outcome Z.
Variable cfg : Config.

(** X5: one turn of the inner loop, whatever its outcome (also when it
    throws), touches no document but its own, creates and deletes no
    document, changes no content or scheduling field, and only appends: at
    most one record in all to the history and dead-letter collections, and
    at most one call to the gateway. *)
Theorem process_doc_touches_one doc w :
  let w' := (process_doc clock gateway timestampFromDate cfg doc w).2 in
  (forall id, id <> doc.1 ->
     scheduled_notifications w' !! id = scheduled_notifications w !! id)
  /\ (forall id,
        scheduled_notifications w' !! id = None
        <-> scheduled_notifications w !! id = None)
  /\ (forall id j j',
        scheduled_notifications w !! id = Some j ->
        scheduled_notifications w' !! id = Some j' ->
        content j' = content j)
  /\ exists ns fs cs,
      notifications w' = notifications w ++ ns
      /\ failed_notifications w' = failed_notifications w ++ fs
      /\ gateway_calls w' = gateway_calls w ++ cs
      /\ (List.length ns + List.length fs <= 1)%nat
      /\ (List.length cs <= 1)%nat.
Proof.
  intros w'. subst w'.
  destruct (process_doc_evolves clock gateway timestampFromDate cfg doc w)
    as (d & (Hu & Hj & Hn & Hf & Hc & _) & _ & (Hid & Hcalls & Hrec & _)).
  rewrite Hj. split; [|split; [|split]].
  - intros id Hne. apply replay_other.
    eapply Forall_impl; [exact Hid|]. intros u ->. done.
  - intros id. apply replay_None.
  - intros id j j'. apply replay_content.
  - by exists (d_notifications d), (d_failed d), (d_calls d).
Qed.

(** X6: when the loop over a page returns, the counter has grown by the
    number of documents of the page that have a target: a document without
    one is skipped by [continue], every other one is counted, whether its
    dispatch succeeded, failed or was a dry run.  In live mode that is also
    the number of gateway calls made. *)
Theorem process_page_counts docs p w n w' :
  process_page clock gateway timestampFromDate cfg docs p w = (Ok n, w') ->
  n = p + Z.of_nat (List.length (targeted docs))
  /\ (DRY_RUN cfg = false ->
      Z.of_nat (List.length (gateway_calls w'))
      = Z.of_nat (List.length (gateway_calls w)) + (n - p)).
Proof.
  intros Hrun.
  destruct (process_page_evolves clock gateway timestampFromDate cfg
              docs p w) as (d & (_ & _ & _ & _ & Hc & _) & _ & (_ & _ & Hr)).
  rewrite Hrun in Hc, Hr. cbn [fst snd] in *.
  destruct (Hr n eq_refl) as [-> Hlive]. split; [done|].
  intros Hl. rewrite Hc, length_app. specialize (Hlive Hl). lia.
Qed.

(** X7: line 116 runs after the claim and outside the [try].  If the
    expiry conversion throws for a job the transaction has just claimed,
    the error leaves the loop body: the job stays in [processing], nothing
    is sent or recorded, the rest of the page is not processed, and no
    later due query returns the job. *)
Theorem conversion_failure_strands_job id data cur w e :
  scheduled_notifications w !! id = Some cur ->
  status cur = queued ->
  expiry_timestamp timestampFromDate data = Throw e ->
  exists w' j',
    process_doc clock gateway timestampFromDate cfg (id, data) w
    = (Throw e, w')
    /\ scheduled_notifications w' !! id = Some j'
    /\ status j' = processing
    /\ updates w' = updates w ++ [(id, claim_patch (now_at clock w))]
    /\ gateway_calls w' = gateway_calls w
    /\ notifications w' = notifications w
    /\ failed_notifications w' = failed_notifications w
    /\ (forall rest p,
          process_page clock gateway timestampFromDate cfg
                       ((id, data) :: rest) p w
          = (Throw e, w'))
    /\ (forall now limit j,
          (id, j) ∉ due_query now limit (scheduled_notifications w')).
Proof.
  intros Hcur Hq He.
  assert (process_doc clock gateway timestampFromDate cfg (id, data) w
          = (Throw e,
             write_doc id (claim_patch (now_at clock w)) cur (tick w)))
    as Hrun.
  { unfold process_doc, bind. cbn [fst snd].
    rewrite (claim_tx_claims clock _ _ _ Hcur Hq).
    unfold dispatch_and_record, read_fields, bind, lift. by rewrite He. }
  eexists _, _. split; [exact Hrun|]. cbn.
  rewrite lookup_insert_eq. do 6 (split; [done|]). split.
  - intros rest p. cbn [process_page]. unfold bind. by rewrite Hrun.
  - intros now limit j Hin. apply due_query_sound in Hin as (Hj & Hs & _).
    rewrite lookup_insert_eq in Hj. by injection Hj as <-.
Qed.

(** X8: the body of the inner loop returns normally only when the document
    exists, and then never leaves it in [processing]: the document carries
    a result, and its status is [error] with result [missing-target] when
    the turn was skipped by [continue], [sent], [queued] or [error]
    otherwise.  The turn is counted exactly when the job has a target. *)
Theorem process_doc_returns_settled id data w b w' :
  process_doc clock gateway timestampFromDate cfg (id, data) w = (Ok b, w') ->
  (b = true <-> has_target data)
  /\ exists j',
      scheduled_notifications w' !! id = Some j'
      /\ status j' <> processing
      /\ is_Some (lastResult j')
      /\ (b = false ->
          status j' = error /\ lastResult j' = Some "missing-target").
Proof.
  intros Hrun. split.
  - destruct (process_doc_evolves clock gateway timestampFromDate cfg
                (id, data) w) as (d & _ & _ & (_ & _ & _ & Hr)).
    rewrite Hrun in Hr. by destruct (Hr b eq_refl).
  - revert Hrun. run.
    repeat (case_match; cbn; unfold ret in *; simplify_eq/=).
    all: intros Hrun; simplify_eq/=.
    all: eexists; rewrite lookup_insert_eq; split; [done|]; cbn.
    all: split; [done|]; split; [by eexists|]; by intros [=].
Qed.

End Turns.


(** ** A whole run *)

Section SoundQuery.

Variable clock : nat -> Z.
Variable gateway : list Message -> Message -> Outcome string.
Variable timestampFromDate : Value -> Outcome Z.
Variable cfg : Config.
Variable query : Z -> Z -> gmap string Job -> list (string * Job).

Hypothesis query_sound :
  forall now limit (jobs : gmap string Job) id j,
    (id, j) ∈ query now limit jobs ->
    jobs !! id = Some j /\ is_due now (id, j).

Lemma batch_body_idle p w :
  (forall id j,
     scheduled_notifications w !! id = Some j ->
     ~ is_due (now_at clock w) (id, j)) ->
  batch_body clock gateway timestampFromDate cfg query p w
  = (Ok (p, true), push_page 0 (tick w)).
Proof.
  intros Hnone.
  unfold batch_body, fetch, bind, ret, nowTs, note_page.
  cbv beta iota zeta. cbn [scheduled_notifications tick clock_reads].
  destruct (query _ _ _) as [|[id j] docs] eqn:Hpage; [done|].
  destruct (query_sound (clock (clock_reads w)) (BATCH_LIMIT cfg)
              (scheduled_notifications w) id j) as [Hj Hdue].
  { rewrite Hpage. apply elem_of_cons. by left. }
  by destruct (Hnone id j Hj).
Qed.

Lemma batch_loop_idle batch p w :
  (forall id j,
     scheduled_notifications w !! id = Some j ->
     ~ is_due (now_at clock w) (id, j)) ->
  exists w',
    batch_loop clock gateway timestampFromDate cfg query batch p w
    = (Ok p, w')
    /\ scheduled_notifications w' = scheduled_notifications w
    /\ updates w' = updates w
    /\ gateway_calls w' = gateway_calls w
    /\ notifications w' = notifications w
    /\ failed_notifications w' = failed_notifications w
    /\ (List.length (page_sizes w') <= S (List.length (page_sizes w)))%nat.
Proof.
  intros Hnone.
  funelim (batch_loop clock gateway timestampFromDate cfg query batch p w);
    try (rewrite (batch_body_idle processed w Hnone) in Heq;
         injection Heq as <- <-).
  - exists w. repeat split; [done..|lia].
  - eexists. split; [done|]. cbn. rewrite length_app. cbn.
    repeat split; [done..|lia].
  - rewrite (batch_body_idle processed w Hnone) in Heq. discriminate Heq.
  - rewrite (batch_body_idle processed w Hnone) in Heq. discriminate Heq.
Qed.

Lemma batch_loop_skips batch p w id j :
  scheduled_notifications w !! id = Some j ->
  status j <> queued ->
  exists d,
    evolves w
      (batch_loop clock gateway timestampFromDate cfg query batch p w).2 d
    /\ Forall (fun u => u.1 <> id) (d_updates d).
Proof.
  intros Hj Hs.
  funelim (batch_loop clock gateway timestampFromDate cfg query batch p w);
    try (destruct (batch_body_evolves clock gateway timestampFromDate cfg
                     query processed w) as (d1 & He1 & _ & Hid1 & _);
         rewrite Heq in He1; cbn [fst snd] in He1;
         assert (Forall (fun u => u.1 <> id) (d_updates d1)) as Hne1
           by (eapply Forall_impl; [exact Hid1|];
               intros u Hu Hu1;
               apply list_elem_of_fmap in Hu as ([id' j'] & Hid' & Hin);
               cbn in Hid';
               assert (id' = id) as -> by congruence;
               apply query_sound in Hin as [Hj' [Hq _]];
               cbn in Hq; congruence)).
  - exists no_delta. split; [apply evolves_refl|constructor].
  - by exists d1.
  - assert (scheduled_notifications w1 !! id = Some j) as Hj1.
    { destruct He1 as (_ & -> & _). by rewrite replay_other. }
    match goal with
    | IH : forall _ _, _ -> _ -> exists _ : Delta, _ |- _ =>
        destruct (IH id j Hj1 Hs) as (d2 & He2 & Hne2)
    end.
    exists (delta_app d1 d2). split; [by eapply evolves_trans|].
    by apply Forall_app.
  - by exists d1.
Qed.

End SoundQuery.


Lemma due_query_due now limit (jobs : gmap string Job) id j :
  (id, j) ∈ due_query now limit jobs ->
  jobs !! id = Some j /\ is_due now (id, j).
Proof.
  intros Hin. apply due_query_sound in Hin as (Hj & Hq & Hdue).
  by repeat split.
Qed.

(** ** Dead letters of the turns that return *)

Section DeadLetters.

Variable clock : nat -> Z.
Variable gateway : list Message -> Message -> Outcome string.
Variable timestampFromDate : Value -> Outcome Z.
Variable cfg : Config.

(** A turn of the inner loop that returns has appended one dead-letter
    record for each [error] update with an attempt count it wrote. *)
Lemma process_doc_dead_letters doc w :
  let r := process_doc clock gateway timestampFromDate cfg doc w in
  forall b, r.1 = Ok b ->
    (List.length (failed_notifications r.2)
     + List.length (filter marks_dead (updates w))
     = List.length (failed_notifications w)
       + List.length (filter marks_dead (updates r.2)))%nat.
Proof.
  destruct doc as [id data]. run.
  repeat (case_match; cbn; unfold ret in *; simplify_eq/=).
  all: intros b Hb; try discriminate Hb.
  all: rewrite ?filter_app, ?length_app.
  all: repeat match goal with
         | |- context [List.length (filter marks_dead [?u])] =>
             let v := eval vm_compute in
                        (List.length (filter marks_dead [u])) in
             change (List.length (filter marks_dead [u])) with v
         end.
  all: cbn [List.length]; lia.
Qed.

Lemma process_page_dead_letters docs p w :
  let r := process_page clock gateway timestampFromDate cfg docs p w in
  forall n, r.1 = Ok n ->
    (List.length (failed_notifications r.2)
     + List.length (filter marks_dead (updates w))
     = List.length (failed_notifications w)
       + List.length (filter marks_dead (updates r.2)))%nat.
Proof.
  revert p w. induction docs as [|doc docs IH]; intros p w; [done|].
  cbn [process_page]. unfold bind.
  pose proof (process_doc_dead_letters doc w) as H1.
  destruct (process_doc _ _ _ _ doc w) as [[counted|e] w1];
    cbn [fst snd] in *; [|by intros ? [=]].
  intros n Hn. specialize (H1 counted eq_refl).
  specialize (IH _ w1 n Hn). lia.
Qed.

Lemma batch_body_dead_letters query p w :
  let r := batch_body clock gateway timestampFromDate cfg query p w in
  forall res, r.1 = Ok res ->
    (List.length (failed_notifications r.2)
     + List.length (filter marks_dead (updates w))
     = List.length (failed_notifications w)
       + List.length (filter marks_dead (updates r.2)))%nat.
Proof.
  unfold batch_body, fetch, bind, nowTs, note_page, ret.
  cbv beta iota zeta. cbn [scheduled_notifications tick clock_reads].
  destruct (query _ _ _) as [|doc docs] eqn:Hq; [done|].
  pose proof (process_page_dead_letters (doc :: docs) p
                (push_page (List.length (doc :: docs)) (tick w))) as H1.
  destruct (process_page _ _ _ _ _ _ _) as [[n|e] w1];
    cbn [fst snd] in *; [|by intros ? [=]].
  intros res _. exact (H1 n eq_refl).
Qed.

Lemma batch_loop_dead_letters query batch p w :
  let r := batch_loop clock gateway timestampFromDate cfg query batch p w in
  forall n, r.1 = Ok n ->
    (List.length (failed_notifications r.2)
     + List.length (filter marks_dead (updates w))
     = List.length (failed_notifications w)
       + List.length (filter marks_dead (updates r.2)))%nat.
Proof.
  funelim (batch_loop clock gateway timestampFromDate cfg query batch p w);
    try (pose proof (batch_body_dead_letters query processed w) as H1;
         rewrite Heq in H1; cbn [fst snd] in H1).
  - done.
  - intros ? _. exact (H1 _ eq_refl).
  - intros n' Hn'. specialize (H1 _ eq_refl).
    match goal with
    | IH : forall _, _ -> _ |- _ => specialize (IH n' Hn')
    end.
    lia.
  - by intros ? [=].
Qed.

End DeadLetters.

Section WholeRun.

Variable clock : nat -> Z.
Variable gateway : list Message -> Message -> Outcome string.
Variable timestampFromDate : Value -> Outcome Z.
Variable cfg : Config.

Lemma main_evolves w :
  let r := main clock gateway timestampFromDate cfg w in
  let budget := (Z.to_nat (MAX_BATCHES cfg) * Z.to_nat (BATCH_LIMIT cfg))%nat in
  exists d,
    evolves w r.2 d /\ lawful cfg d
    /\ (List.length (d_calls d) <= budget)%nat
    /\ (forall n, r.1 = Ok n ->
          0 <= n <= Z.of_nat budget
          /\ (DRY_RUN cfg = false ->
              Z.of_nat (List.length (d_calls d)) = n)).
Proof.
  unfold main.
  destruct (batch_loop_evolves clock gateway timestampFromDate cfg due_query
              (Z.to_nat (BATCH_LIMIT cfg))
              (fun now jobs => due_query_length now (BATCH_LIMIT cfg) jobs)
              0 0 w) as (d & He & Hl & Hc & Hr).
  rewrite Z.sub_0_r in Hc, Hr.
  exists d. split; [done|]. split; [done|]. split; [done|].
  intros n Hn. destruct (Hr n Hn) as [Hb Hlive]. split; [lia|].
  intros Hl'. specialize (Hlive Hl'). lia.
Qed.

(** X9: when no document of the collection is queued and due at the
    instant the run reads the clock, [main] reports zero processed
    documents and leaves the job collection, the history, the dead letters
    and the traces of updates and gateway calls as they were; it runs the
    due query at most once. *)
Theorem main_idle w :
  (forall id j,
     scheduled_notifications w !! id = Some j ->
     ~ (status j = queued /\ scheduleTime j <= now_at clock w)) ->
  exists w',
    main clock gateway timestampFromDate cfg w = (Ok 0, w')
    /\ scheduled_notifications w' = scheduled_notifications w
    /\ updates w' = updates w
    /\ gateway_calls w' = gateway_calls w
    /\ notifications w' = notifications w
    /\ failed_notifications w' = failed_notifications w
    /\ (List.length (page_sizes w') <= S (List.length (page_sizes w)))%nat.
Proof.
  intros Hnone. unfold main.
  apply (batch_loop_idle clock gateway timestampFromDate cfg due_query
           due_query_due 0 0 w).
  intros id j Hj Hdue. by apply (Hnone id j Hj).
Qed.

(** X10: a run never writes to a document that was not queued when the run
    started (one that is in flight, sent or in error): no update of the run
    names it and it is in the collection afterwards exactly as before.  A
    second run after a completed one is therefore harmless. *)
Theorem main_leaves_settled_jobs w id j :
  scheduled_notifications w !! id = Some j ->
  status j <> queued ->
  let w' := (main clock gateway timestampFromDate cfg w).2 in
  scheduled_notifications w' !! id = Some j
  /\ exists us,
      updates w' = updates w ++ us /\ Forall (fun u => u.1 <> id) us.
Proof.
  intros Hj Hs w'. subst w'. unfold main.
  destruct (batch_loop_skips clock gateway timestampFromDate cfg due_query
              due_query_due 0 0 w id j Hj Hs)
    as (d & (Hu & Hjobs & _) & Hne).
  split; [|by exists (d_updates d)].
  by rewrite Hjobs, replay_other.
Qed.

(** X11: the trace of updates is a faithful log of a run.  The job
    collection after [main] is the collection before it with the updates of
    the run applied in order; no document is created or deleted and no
    content or scheduling field changes; the history and the dead-letter
    collection only grow at their end. *)
Theorem main_replays_updates w :
  let w' := (main clock gateway timestampFromDate cfg w).2 in
  exists us ns fs,
    updates w' = updates w ++ us
    /\ scheduled_notifications w' = replay us (scheduled_notifications w)
    /\ notifications w' = notifications w ++ ns
    /\ failed_notifications w' = failed_notifications w ++ fs
    /\ (forall id,
          scheduled_notifications w' !! id = None
          <-> scheduled_notifications w !! id = None)
    /\ (forall id j j',
          scheduled_notifications w !! id = Some j ->
          scheduled_notifications w' !! id = Some j' ->
          content j' = content j).
Proof.
  intros w'. subst w'.
  destruct (main_evolves w) as (d & (Hu & Hj & Hn & Hf & _) & _).
  exists (d_updates d), (d_notifications d), (d_failed d).
  do 4 (split; [done|]). rewrite Hj. split.
  - intros id. apply replay_None.
  - intros id j j'. apply replay_content.
Qed.

(** X12: whatever the gateway answers, a run puts a job back to [queued]
    only together with an attempt count below [MAX_ATTEMPTS], and every
    update other than the claim records a result. *)
Theorem main_requeues_below_max w :
  let w' := (main clock gateway timestampFromDate cfg w).2 in
  exists us,
    updates w' = updates w ++ us
    /\ Forall (fun u =>
                 set_status u.2 = Some queued ->
                 exists a,
                   set_attemptCount u.2 = Some a /\ a < MAX_ATTEMPTS cfg) us
    /\ Forall (fun u =>
                 set_status u.2 = Some processing
                 \/ is_Some (set_lastResult u.2)) us.
Proof.
  intros w'. subst w'.
  destruct (main_evolves w) as (d & (Hu & _) & (Hq & Hr & _) & _).
  by exists (d_updates d).
Qed.

(** X13: over a run, the history grows by exactly one record per update
    that marks a job [sent].  The dead-letter collection grows by at most
    one record per update that marks a job [error] with an attempt count
    (the failures of the [catch] block, not the missing-target
    rejections), and by exactly one per such update when the run
    returns: a record is missing only when the dead-letter [add] threw,
    and that ends the run. *)
Theorem main_records_match_updates w :
  let r := main clock gateway timestampFromDate cfg w in
  exists us,
    updates r.2 = updates w ++ us
    /\ List.length (notifications r.2)
       = (List.length (notifications w)
          + List.length (filter marks_sent us))%nat
    /\ (List.length (failed_notifications r.2)
        <= List.length (failed_notifications w)
           + List.length (filter marks_dead us))%nat
    /\ (forall n, r.1 = Ok n ->
          List.length (failed_notifications r.2)
          = (List.length (failed_notifications w)
             + List.length (filter marks_dead us))%nat).
Proof.
  intros r. subst r.
  destruct (main_evolves w)
    as (d & (Hu & _ & Hn & Hf & _) & (_ & _ & Hns & Hfs & _) & _).
  exists (d_updates d). split; [done|].
  split; [by rewrite Hn, !length_app, Hns|].
  split; [rewrite Hf, !length_app; lia|].
  intros n Hn'.
  pose proof (batch_loop_dead_letters clock gateway timestampFromDate cfg
                due_query 0 0 w n Hn') as Hd.
  fold (main clock gateway timestampFromDate cfg) in Hd.
  rewrite Hu, filter_app, length_app in Hd. lia.
Qed.

(** X14: a run makes at most [MAX_BATCHES * BATCH_LIMIT] gateway calls, and
    the count it reports lies between zero and that product. *)
Theorem main_call_budget w :
  let r := main clock gateway timestampFromDate cfg w in
  let budget := (Z.to_nat (MAX_BATCHES cfg) * Z.to_nat (BATCH_LIMIT cfg))%nat in
  (List.length (gateway_calls r.2)
   <= List.length (gateway_calls w) + budget)%nat
  /\ (forall n, r.1 = Ok n -> 0 <= n <= Z.of_nat budget).
Proof.
  intros r budget. subst r budget.
  destruct (main_evolves w) as (d & (_ & _ & _ & _ & Hc & _) & _ & Hb & Hr).
  split; [rewrite Hc, length_app; lia|].
  intros n Hn. by destruct (Hr n Hn).
Qed.

(** X15: in dry-run mode a whole run makes no gateway call, writes no
    dead-letter record and puts no job back to [queued]. *)
Theorem main_dry_run w :
  DRY_RUN cfg = true ->
  let w' := (main clock gateway timestampFromDate cfg w).2 in
  gateway_calls w' = gateway_calls w
  /\ failed_notifications w' = failed_notifications w
  /\ exists us,
      updates w' = updates w ++ us
      /\ Forall (fun u => set_status u.2 <> Some queued) us.
Proof.
  intros Hdry w'. subst w'.
  destruct (main_evolves w)
    as (d & (Hu & _ & _ & Hf & Hc & _) & (_ & _ & _ & _ & Hd) & _).
  destruct (Hd Hdry) as (Hcalls & Hfailed & Hq).
  rewrite Hc, Hf, Hcalls, Hfailed, !app_nil_r.
  split; [done|]. split; [done|]. by exists (d_updates d).
Qed.

(** X16: in live mode, when a run returns, the count it reports is the
    number of gateway calls it made: every counted document was handed to
    the gateway exactly once, whatever the outcome. *)
Theorem main_processed_is_calls w n w' :
  DRY_RUN cfg = false ->
  main clock gateway timestampFromDate cfg w = (Ok n, w') ->
  Z.of_nat (List.length (gateway_calls w'))
  = Z.of_nat (List.length (gateway_calls w)) + n.
Proof.
  intros Hlive Hrun.
  destruct (main_evolves w) as (d & (_ & _ & _ & _ & Hc & _) & _ & _ & Hr).
  rewrite Hrun in Hc, Hr. cbn [fst snd] in *.
  destruct (Hr n eq_refl) as [_ Hn]. specialize (Hn Hlive).
  rewrite Hc, length_app. lia.
Qed.

End WholeRun.

(** ** The earlier variants *)

Ltac run_variant :=
  unfold SendScheduled.process_doc, SendScheduled.dispatch_and_record,
    SendScheduled.on_failure, FirstVariant.process_doc,
    FirstVariant.send_and_log, FirstVariant.on_failure;
  run.

Section SendScheduledBody.

Variable clock : nat -> Z.
Variable gateway : list Message -> Message -> Outcome string.
Variable timestampFromDate : Value -> Outcome Z.
Variable cfg : Config.

Lemma sendScheduled_dispatch_retry id data cur w oe e :
  DRY_RUN cfg = false ->
  scheduled_notifications w !! id = Some cur ->
  expiry_timestamp timestampFromDate data = Ok oe ->
  has_target data ->
  gateway (gateway_calls w) (build_message (fields_of data oe)) = Throw e ->
  isRetryableError e = true ->
  SendScheduled.dispatch_and_record clock gateway timestampFromDate cfg
                                    id data w
  = (Ok true,
     let w1 := push_call (build_message (fields_of data oe)) w in
     write_doc id
       (retry_patch (num_or_zero (attemptCount data) + 1) (catch_text e)
                    (now_at clock w1))
       cur (tick w1)).
Proof.
  intros Hdry Hcur He Ht Hg Hr. run_variant. rewrite He. cbn.
  destruct (str_falsy _ && str_falsy _) eqn:Hl.
  { apply (lacks_target_test data oe) in Hl. done. }
  rewrite Hdry. cbn. rewrite Hg. cbn. rewrite Hr. cbn. by rewrite Hcur.
Qed.

Lemma sendScheduled_dispatch_fatal id data cur w oe e :
  DRY_RUN cfg = false ->
  scheduled_notifications w !! id = Some cur ->
  expiry_timestamp timestampFromDate data = Ok oe ->
  has_target data ->
  gateway (gateway_calls w) (build_message (fields_of data oe)) = Throw e ->
  isRetryableError e = false ->
  SendScheduled.dispatch_and_record clock gateway timestampFromDate cfg
                                    id data w
  = (Ok true,
     let w1 := push_call (build_message (fields_of data oe)) w in
     write_doc id (failure_patch (catch_text e) (now_at clock w1))
               cur (tick w1)).
Proof.
  intros Hdry Hcur He Ht Hg Hr. run_variant. rewrite He. cbn.
  destruct (str_falsy _ && str_falsy _) eqn:Hl.
  { apply (lacks_target_test data oe) in Hl. done. }
  rewrite Hdry. cbn. rewrite Hg. cbn. rewrite Hr. cbn. by rewrite Hcur.
Qed.

Lemma sendScheduled_process_doc_failed doc w :
  failed_notifications
    (SendScheduled.process_doc clock gateway timestampFromDate cfg doc w).2
  = failed_notifications w.
Proof.
  destruct doc as [id data]. run_variant.
  repeat (case_match; cbn; unfold ret in *; simplify_eq/=).
  all: done.
Qed.

Lemma sendScheduled_process_page_failed docs p w :
  failed_notifications
    (SendScheduled.process_page clock gateway timestampFromDate cfg
                                docs p w).2
  = failed_notifications w.
Proof.
  revert p w. induction docs as [|doc docs IH]; intros p w; [done|].
  cbn [SendScheduled.process_page]. unfold bind.
  pose proof (sendScheduled_process_doc_failed doc w) as H1.
  destruct (SendScheduled.process_doc _ _ _ _ doc w) as [[c|e] w1];
    cbn [fst snd] in *; [|done].
  by rewrite IH.
Qed.

Lemma sendScheduled_batch_body_failed query p w :
  failed_notifications
    (SendScheduled.batch_body clock gateway timestampFromDate cfg
                              query p w).2
  = failed_notifications w.
Proof.
  unfold SendScheduled.batch_body, fetch, bind, nowTs, note_page, ret. cbn.
  destruct (query _ _ _) as [|doc docs] eqn:Hq; [done|].
  pose proof (sendScheduled_process_page_failed (doc :: docs) p
                (push_page (List.length (doc :: docs)) (tick w))) as H1.
  destruct (SendScheduled.process_page _ _ _ _ _ _ _) as [[n|e] w1];
    cbn [fst snd] in *; done.
Qed.

Lemma sendScheduled_batches_failed query batch p w :
  failed_notifications
    (SendScheduled.batches clock gateway timestampFromDate cfg
                           query batch p w).2
  = failed_notifications w.
Proof.
  funelim (SendScheduled.batches clock gateway timestampFromDate cfg
                                 query batch p w);
    try done.
  all: match goal with
       | Hb : SendScheduled.batch_body _ _ _ _ ?q ?p ?w = _ |- _ =>
           pose proof (sendScheduled_batch_body_failed q p w) as Hf;
           rewrite Hb in Hf; cbn [fst snd] in Hf
       end.
  all: first [ done | by etrans; [eassumption|] ].
Qed.

End SendScheduledBody.

(** X17: in [sendScheduled.ts] no run of [main] writes to
    [failed_notifications]: the collection is after the run what it was
    before, whatever the gateway answers and however the run ends. *)
Theorem sendScheduled_never_dead_letters
        clock gateway timestampFromDate cfg w :
  failed_notifications
    (SendScheduled.main clock gateway timestampFromDate cfg w).2
  = failed_notifications w.
Proof. apply sendScheduled_batches_failed. Qed.

(** X18: in [sendScheduled.ts] a job with a target whose dispatch fails
    with an error that is not retryable ends with status [error] and the
    error text as [lastResult]; its attempt count stays what the claimed
    document had, the only writes are the claim and the error update, and
    neither a history record nor a dead-letter record is added. *)
Theorem sendScheduled_fatal_failure
        clock gateway timestampFromDate cfg id data w oe e :
  DRY_RUN cfg = false ->
  scheduled_notifications w !! id = Some data ->
  status data = queued ->
  expiry_timestamp timestampFromDate data = Ok oe ->
  has_target data ->
  gateway (gateway_calls w) (build_message (fields_of data oe)) = Throw e ->
  isRetryableError e = false ->
  exists w' j' t1 t2,
    SendScheduled.process_doc clock gateway timestampFromDate cfg
                              (id, data) w = (Ok true, w')
    /\ scheduled_notifications w' !! id = Some j'
    /\ status j' = error
    /\ lastResult j' = Some (catch_text e)
    /\ attemptCount j' = attemptCount data
    /\ updates w'
       = updates w ++ [(id, claim_patch t1);
                       (id, failure_patch (catch_text e) t2)]
    /\ notifications w' = notifications w
    /\ failed_notifications w' = failed_notifications w.
Proof.
  intros Hdry Hcur Hq He Ht Hg Hr.
  unfold SendScheduled.process_doc, bind. cbn [fst snd].
  rewrite (claim_tx_claims clock id data w Hcur Hq).
  erewrite (sendScheduled_dispatch_fatal clock gateway timestampFromDate cfg
              id data _ _ oe e);
    [ | done | by cbn; rewrite lookup_insert_eq | done | done | done | done ].
  eexists _, _, _, _. split; [done|]. cbn. rewrite lookup_insert_eq.
  split; [done|]. do 3 (split; [done|]).
  split; [by rewrite <- app_assoc|]. done.
Qed.

(** X19: [sendScheduled.ts] and the final variant do the same to a
    document whenever every error of the gateway is retryable and the
    attempt the document is at stays below [MAX_ATTEMPTS]: same result,
    same writes, same records. *)
Theorem sendScheduled_agrees_below_max
        clock gateway timestampFromDate cfg doc w :
  (forall calls msg e,
     gateway calls msg = Throw e -> isRetryableError e = true) ->
  num_or_zero (attemptCount doc.2) + 1 < MAX_ATTEMPTS cfg ->
  SendScheduled.process_doc clock gateway timestampFromDate cfg doc w
  = process_doc clock gateway timestampFromDate cfg doc w.
Proof.
  intros Hretry Hlt. destruct doc as [id data]. cbn [snd] in Hlt.
  apply Z.ltb_lt in Hlt. run_variant. rewrite Hlt. cbn.
  repeat (case_match; cbn; unfold ret in *; simplify_eq/=).
  all: first [ done
             | match goal with
               | H : _ = Throw ?e, H' : isRetryableError ?e = false |- _ =>
                   apply Hretry in H; congruence
               end ].
Qed.

Section SendScheduledLifecycle.

Variable clock : nat -> Z.
Variable gateway : list Message -> Message -> Outcome string.
Variable timestampFromDate : Value -> Outcome Z.
Variable cfg : Config.
Variable id : string.
Variable j0 : Job.
Variable oe : option Z.

Hypothesis live : DRY_RUN cfg = false.
Hypothesis always_due : forall n, scheduleTime j0 <= clock n.
Hypothesis targeted : has_target j0.
Hypothesis expiry_converts : expiry_timestamp timestampFromDate j0 = Ok oe.
Hypothesis always_transient :
  forall calls msg,
    exists e, gateway calls msg = Throw e /\ isRetryableError e = true.

Lemma sendScheduled_deliver_retry k w :
  waiting id j0 k w ->
  exists w',
    SendScheduled.deliver_if_due clock gateway timestampFromDate cfg id w
    = (Ok tt, w')
    /\ waiting id j0 (k + 1) w'
    /\ failed_notifications w' = failed_notifications w
    /\ notifications w' = notifications w
    /\ List.length (gateway_calls w') = S (List.length (gateway_calls w)).
Proof.
  intros (j & Hj & Hq & Hk & Hc).
  unfold SendScheduled.deliver_if_due, bind, nowTs, doc_get. cbn.
  rewrite Hj. rewrite bool_decide_true.
  2:{ split; [done|]. cbn. rewrite (content_scheduleTime _ _ Hc).
      apply always_due. }
  unfold SendScheduled.process_doc, bind. cbn [fst snd].
  rewrite (claim_tx_claims clock id j (tick w) Hj Hq).
  set (w1 := write_doc id _ j _).
  destruct (always_transient (gateway_calls w1)
              (build_message (fields_of j oe))) as (e & Hthrow & Hretry).
  erewrite (sendScheduled_dispatch_retry clock gateway timestampFromDate cfg
              id j _ w1 oe e);
    [ | done | by subst w1; cbn; rewrite lookup_insert_eq
      | by rewrite (content_expiry_timestamp _ _ _ Hc)
      | by apply (content_has_target _ _ Hc) | done | done ].
  eexists. split; [done|]. cbn. split; [|split; [done|split; [done|]]].
  - unfold waiting. eexists. cbn. rewrite lookup_insert_eq.
    split; [done|]. cbn. split; [done|]. split; [|done].
    rewrite Hk. destruct (k + 1 =? 0) eqn:E; [|done].
    apply Z.eqb_eq in E. lia.
  - rewrite length_app. cbn. lia.
Qed.

(** X20: in [sendScheduled.ts] a job whose every dispatch fails with a
    retryable error is never given up: after any number [n] of deliveries
    it is queued again with [n] more attempts on record, the gateway has
    been called [n] more times, and neither a history record nor a
    dead-letter record has been written. *)
Theorem sendScheduled_retries_never_end (n : nat) (w : World) :
  scheduled_notifications w !! id = Some j0 ->
  status j0 = queued ->
  exists w',
    SendScheduled.deliveries clock gateway timestampFromDate cfg n id w
    = (Ok tt, w')
    /\ waiting id j0 (num_or_zero (attemptCount j0) + Z.of_nat n) w'
    /\ List.length (gateway_calls w')
       = (List.length (gateway_calls w) + n)%nat
    /\ notifications w' = notifications w
    /\ failed_notifications w' = failed_notifications w.
Proof.
  intros Hj Hq.
  assert (waiting id j0 (num_or_zero (attemptCount j0)) w) as Hw
    by (by exists j0).
  clear Hj Hq. revert w Hw. generalize (num_or_zero (attemptCount j0)) as k.
  induction n as [|n IH]; intros k w Hw.
  - exists w. rewrite Z.add_0_r, Nat.add_0_r. by repeat split.
  - destruct (sendScheduled_deliver_retry k w Hw)
      as (w1 & Hd1 & Hw1 & Hf1 & Hn1 & Hc1).
    destruct (IH (k + 1) w1 Hw1) as (w2 & Hd2 & Hw2 & Hc2 & Hn2 & Hf2).
    exists w2. cbn [SendScheduled.deliveries]. unfold bind.
    rewrite Hd1, Hd2. split; [done|]. split.
    { replace (k + Z.of_nat (S n)) with (k + 1 + Z.of_nat n) by lia. done. }
    split; [lia|]. split; congruence.
Qed.

End SendScheduledLifecycle.

Section FirstVariantBody.

Variable clock : nat -> Z.
Variable gateway : list Message -> Message -> Outcome string.
Variable timestampFromDate : Value -> Outcome Z.

Lemma firstVariant_process_doc_calls doc w :
  exists ms,
    gateway_calls
      (FirstVariant.process_doc clock gateway timestampFromDate doc w).2
    = gateway_calls w ++ ms
    /\ (List.length ms <= 1)%nat.
Proof.
  destruct doc as [id data]. run_variant.
  repeat (case_match; cbn; unfold ret in *; simplify_eq/=).
  all: first [ by exists []; rewrite app_nil_r; split; [|cbn; lia]
             | by eexists [_]; split; [|cbn; lia] ].
Qed.

Lemma firstVariant_process_page_calls docs w :
  (List.length
     (gateway_calls
        (FirstVariant.process_page clock gateway timestampFromDate
                                   docs w).2)
   <= List.length (gateway_calls w) + List.length docs)%nat.
Proof.
  revert w. induction docs as [|doc docs IH]; intros w; [cbn; lia|].
  cbn [FirstVariant.process_page]. unfold bind.
  destruct (firstVariant_process_doc_calls doc w) as (ms & Hms & Hlen).
  destruct (FirstVariant.process_doc _ _ _ doc w) as [[[]|e] w1];
    cbn [fst snd List.length] in *.
  - specialize (IH w1). rewrite Hms, length_app in IH. lia.
  - rewrite Hms, length_app. lia.
Qed.

End FirstVariantBody.

(** X21: the earliest variant has no target check: a job with neither a
    topic nor a token, provided its expiry converts, is handed to the
    gateway all the same, in a message whose [topic] and [token] are both
    absent. *)
Theorem firstVariant_sends_without_target
        clock gateway timestampFromDate id data w oe :
  expiry_timestamp timestampFromDate data = Ok oe ->
  ~ has_target data ->
  exists msg,
    gateway_calls
      (FirstVariant.process_doc clock gateway timestampFromDate
                                (id, data) w).2
    = gateway_calls w ++ [msg]
    /\ msg = build_message (fields_of data oe)
    /\ m_topic msg = None
    /\ m_token msg = None.
Proof.
  intros He Ht. unfold has_target in Ht.
  assert (toSafeString (topic data) = None
          /\ toSafeString (token data) = None) as [Htopic Htoken].
  { rewrite !eq_None_not_Some. tauto. }
  exists (build_message (fields_of data oe)).
  split; [|by cbn; rewrite Htopic, Htoken].
  run_variant. rewrite He. cbn.
  repeat (case_match; cbn; unfold ret in *; simplify_eq/=).
  all: done.
Qed.

(** X22: in the earliest variant every failed dispatch is final, also one
    whose error is of the retryable kind: the job ends with status [error]
    and the error text as [lastResult], its attempt count is untouched, no
    record is written, and at no later instant is the job due again. *)
Theorem firstVariant_failure_is_final
        clock gateway timestampFromDate id data w oe e :
  scheduled_notifications w !! id = Some data ->
  status data = queued ->
  expiry_timestamp timestampFromDate data = Ok oe ->
  gateway (gateway_calls w) (build_message (fields_of data oe)) = Throw e ->
  exists w' j',
    FirstVariant.process_doc clock gateway timestampFromDate (id, data) w
    = (Ok tt, w')
    /\ scheduled_notifications w' !! id = Some j'
    /\ status j' = error
    /\ lastResult j' = Some (catch_text e)
    /\ attemptCount j' = attemptCount data
    /\ (forall now, ~ is_due now (id, j'))
    /\ notifications w' = notifications w
    /\ failed_notifications w' = failed_notifications w.
Proof.
  intros Hcur Hq He Hg. run_variant. rewrite Hcur. cbn.
  rewrite bool_decide_true by done. cbn. rewrite Hcur, He. cbn.
  rewrite Hg. cbn. rewrite lookup_insert_eq. cbn.
  eexists _, _. split; [done|]. cbn. rewrite lookup_insert_eq.
  split; [done|]. cbn. do 3 (split; [done|]). split; [|done].
  by intros now [? _].
Qed.

(** X23: one run of the earliest variant calls the gateway at most 50
    times. *)
Theorem firstVariant_call_budget clock gateway timestampFromDate w :
  (List.length
     (gateway_calls (FirstVariant.main clock gateway timestampFromDate w).2)
   <= List.length (gateway_calls w) + 50)%nat.
Proof.
  unfold FirstVariant.main, bind, nowTs, ret. cbn [fst snd].
  pose proof (due_query_length (clock (clock_reads w)) 50
                (scheduled_notifications (tick w))) as Hlen.
  destruct (due_query _ 50 _) as [|doc docs] eqn:Hq; [cbn; lia|].
  pose proof (firstVariant_process_page_calls clock gateway
                timestampFromDate (doc :: docs) (tick w)) as Hp.
  cbn [gateway_calls tick] in Hp. cbn in Hlen |- *. cbn in Hp. lia.
Qed.

(** ** The further properties on sample data *)

(** X3 on the job whose extra data reuses the key [title]. *)
Lemma extra_data_shadows_witness :
  let m := build_message (fields_of job_extra None) in
  m_data m !! "title" = Some (VStr "Z")
  /\ m_data m !! "campaign" = Some (VStr "c1")
  /\ m_data m !! "screen" = Some (VStr "/notifications_screen").
Proof.
  destruct (extra_data_shadows (fields_of job_extra None)) as [Hin Hout];
    [by apply (bool_decide_unpack _); vm_compute|].
  split; [apply Hin; simpl; by left|].
  split; [apply Hin; simpl; right; by left|].
  rewrite Hout; [reflexivity|].
  by apply (bool_decide_unpack _); vm_compute.
Defined.

(** X6 on a page of two jobs, one of them without a target. *)
Lemma process_page_counts_witness :
  let docs := [("a", job_news); ("b", job_untargeted)] in
  let r := process_page sample_clock gateway_accepts epoch_conversion
                        default_config docs 0 (world_of two_jobs) in
  r.1 = Ok 1
  /\ 1 = 0 + Z.of_nat (List.length (targeted docs))
  /\ List.length (gateway_calls r.2) = 1%nat.
Proof.
  assert (process_page sample_clock gateway_accepts epoch_conversion
            default_config [("a", job_news); ("b", job_untargeted)] 0
            (world_of two_jobs)
          = (Ok 1,
             (process_page sample_clock gateway_accepts epoch_conversion
                default_config [("a", job_news); ("b", job_untargeted)] 0
                (world_of two_jobs)).2)) as Hrun
    by (vm_compute; reflexivity).
  destruct (process_page_counts sample_clock gateway_accepts epoch_conversion
              default_config _ _ _ _ _ Hrun) as [Hn Hcalls].
  split; [by rewrite Hrun|]. split; [exact Hn|].
  specialize (Hcalls eq_refl). simpl in Hcalls |- *. lia.
Defined.

(** X7 on a job whose expiry the conversion rejects. *)
Lemma conversion_failure_strands_job_witness :
  exists w' j',
    process_doc sample_clock gateway_accepts failing_conversion default_config
                ("a", job_expiring) (world_of {[ "a" := job_expiring ]})
    = (Throw err_bad_date, w')
    /\ scheduled_notifications w' !! "a" = Some j'
    /\ status j' = processing
    /\ gateway_calls w' = []
    /\ notifications w' = []
    /\ forall j,
        ("a", j) ∉ due_query 2000 50 (scheduled_notifications w').
Proof.
  destruct (conversion_failure_strands_job sample_clock gateway_accepts
              failing_conversion default_config "a" job_expiring
              job_expiring (world_of {[ "a" := job_expiring ]}) err_bad_date)
    as (w' & j' & Hrun & Hj & Hs & _ & Hg & Hn & _ & _ & Hdue);
    [reflexivity | reflexivity | reflexivity |].
  exists w', j'. do 5 (split; [assumption|]). apply Hdue.
Defined.

(** X8 on the sample job, the gateway accepting. *)
Lemma process_doc_returns_settled_witness :
  exists j',
    scheduled_notifications
      (process_doc sample_clock gateway_accepts epoch_conversion
                   default_config ("a", job_news)
                   (world_of {[ "a" := job_news ]})).2 !! "a" = Some j'
    /\ status j' <> processing
    /\ is_Some (lastResult j').
Proof.
  destruct (process_doc_returns_settled sample_clock gateway_accepts
              epoch_conversion default_config "a" job_news
              (world_of {[ "a" := job_news ]}) true
              (process_doc sample_clock gateway_accepts epoch_conversion
                 default_config ("a", job_news)
                 (world_of {[ "a" := job_news ]})).2)
    as (_ & j' & Hj & Hs & Hl & _);
    [vm_compute; reflexivity|].
  exists j'. repeat split; assumption.
Defined.

(** X9 on a collection whose only job is already delivered. *)
Lemma main_idle_witness :
  exists w',
    main sample_clock gateway_accepts epoch_conversion default_config
         (world_of {[ "a" := job_delivered ]})
    = (Ok 0, w')
    /\ scheduled_notifications w' = {[ "a" := job_delivered ]}
    /\ updates w' = []
    /\ gateway_calls w' = [].
Proof.
  destruct (main_idle sample_clock gateway_accepts epoch_conversion
              default_config (world_of {[ "a" := job_delivered ]}))
    as (w' & Hrun & Hj & Hu & Hg & _).
  { intros id j Hj [Hs _]. simpl in Hj.
    apply lookup_singleton_Some in Hj as [_ <-]. discriminate Hs. }
  exists w'. repeat split; assumption.
Defined.

(** X10 on a collection with a queued job and a delivered one. *)
Lemma main_leaves_settled_jobs_witness :
  scheduled_notifications
    (main sample_clock gateway_accepts epoch_conversion default_config
          (world_of mixed_jobs)).2 !! "c"
  = Some job_delivered.
Proof.
  apply (main_leaves_settled_jobs sample_clock gateway_accepts
           epoch_conversion default_config (world_of mixed_jobs) "c"
           job_delivered);
    [reflexivity | discriminate].
Defined.

(** X15 on the two sample jobs, in dry-run mode. *)
Lemma main_dry_run_witness :
  let w' := (main sample_clock gateway_accepts epoch_conversion dry_config
                  (world_of two_jobs)).2 in
  gateway_calls w' = [] /\ failed_notifications w' = [].
Proof.
  destruct (main_dry_run sample_clock gateway_accepts epoch_conversion
              dry_config (world_of two_jobs)) as (Hg & Hf & _);
    [reflexivity|].
  split; assumption.
Defined.

(** X16 on the two sample jobs, the gateway unavailable. *)
Lemma main_processed_is_calls_witness :
  let r := main sample_clock gateway_unavailable epoch_conversion
                default_config (world_of two_jobs) in
  r.1 = Ok 1 /\ List.length (gateway_calls r.2) = 1%nat.
Proof.
  assert (main sample_clock gateway_unavailable epoch_conversion
               default_config (world_of two_jobs)
          = (Ok 1,
             (main sample_clock gateway_unavailable epoch_conversion
                   default_config (world_of two_jobs)).2)) as Hrun
    by (vm_compute; reflexivity).
  pose proof (main_processed_is_calls sample_clock gateway_unavailable
                epoch_conversion default_config _ _ _ eq_refl Hrun) as Hc.
  split; [by rewrite Hrun|]. simpl in Hc |- *. lia.
Defined.

(** X18 on the sample job, the gateway rejecting the token. *)
Lemma sendScheduled_fatal_failure_witness :
  exists w' j',
    SendScheduled.process_doc sample_clock gateway_rejects epoch_conversion
                              default_config ("a", job_news)
                              (world_of {[ "a" := job_news ]})
    = (Ok true, w')
    /\ scheduled_notifications w' !! "a" = Some j'
    /\ status j' = error
    /\ attemptCount j' = Some 0
    /\ failed_notifications w' = [].
Proof.
  destruct (sendScheduled_fatal_failure sample_clock gateway_rejects
              epoch_conversion default_config "a" job_news
              (world_of {[ "a" := job_news ]}) None err_invalid_argument)
    as (w' & j' & t1 & t2 & Hrun & Hj & Hs & _ & Ha & _ & _ & Hf);
    [reflexivity | reflexivity | reflexivity | reflexivity
     | left; by eexists | reflexivity | reflexivity |].
  exists w', j'. repeat split; assumption.
Defined.

(** X19 on the sample job, the gateway unavailable. *)
Lemma sendScheduled_agrees_below_max_witness :
  SendScheduled.process_doc sample_clock gateway_unavailable epoch_conversion
                            default_config ("a", job_news)
                            (world_of {[ "a" := job_news ]})
  = process_doc sample_clock gateway_unavailable epoch_conversion
                default_config ("a", job_news)
                (world_of {[ "a" := job_news ]}).
Proof.
  apply (sendScheduled_agrees_below_max sample_clock gateway_unavailable
           epoch_conversion default_config ("a", job_news)
           (world_of {[ "a" := job_news ]})).
  - intros calls msg e [= <-]. reflexivity.
  - simpl. lia.
Defined.

(** X20 on the sample job, the gateway unavailable: eight deliveries, three
    more than [MAX_ATTEMPTS] would allow in the final variant. *)
Lemma sendScheduled_retries_never_end_witness :
  exists w',
    SendScheduled.deliveries sample_clock gateway_unavailable
                             epoch_conversion default_config 8 "a"
                             (world_of {[ "a" := job_news ]})
    = (Ok tt, w')
    /\ waiting "a" job_news 8 w'
    /\ List.length (gateway_calls w') = 8%nat
    /\ failed_notifications w' = [].
Proof.
  destruct (sendScheduled_retries_never_end sample_clock gateway_unavailable
              epoch_conversion default_config "a" job_news None)
    with (n := 8%nat) (w := world_of {[ "a" := job_news ]})
    as (w' & Hrun & Hw & Hc & _ & Hf);
    [ reflexivity
    | intros n; unfold sample_clock; simpl; lia
    | left; by eexists
    | reflexivity
    | intros calls msg; exists err_unavailable; split; reflexivity
    | reflexivity
    | reflexivity
    | ].
  exists w'. repeat split; assumption.
Defined.

(** X21 on the job with neither a topic nor a token. *)
Lemma firstVariant_sends_without_target_witness :
  exists msg,
    gateway_calls
      (FirstVariant.process_doc sample_clock gateway_accepts epoch_conversion
                                ("a", job_untargeted)
                                (world_of {[ "a" := job_untargeted ]})).2
    = [msg]
    /\ m_topic msg = None
    /\ m_token msg = None.
Proof.
  destruct (firstVariant_sends_without_target sample_clock gateway_accepts
              epoch_conversion "a" job_untargeted
              (world_of {[ "a" := job_untargeted ]}) None)
    as (msg & Hc & _ & Htopic & Htoken);
    [reflexivity | by intros [[? [=]]|[? [=]]] |].
  exists msg. repeat split; assumption.
Defined.

(** X22 on the sample job, the gateway unavailable: the error is of the
    retryable kind. *)
Lemma firstVariant_failure_is_final_witness :
  isRetryableError err_unavailable = true
  /\ exists w' j',
      FirstVariant.process_doc sample_clock gateway_unavailable
                               epoch_conversion ("a", job_news)
                               (world_of {[ "a" := job_news ]})
      = (Ok tt, w')
      /\ scheduled_notifications w' !! "a" = Some j'
      /\ status j' = error
      /\ attemptCount j' = Some 0
      /\ ~ is_due 2000 ("a", j').
Proof.
  split; [reflexivity|].
  destruct (firstVariant_failure_is_final sample_clock gateway_unavailable
              epoch_conversion "a" job_news
              (world_of {[ "a" := job_news ]}) None err_unavailable)
    as (w' & j' & Hrun & Hj & Hs & _ & Ha & Hdue & _);
    [reflexivity | reflexivity | reflexivity | reflexivity |].
  exists w', j'. repeat split; [assumption .. | apply Hdue].
Defined.
